(** * ProNestheus: a shallow embedding of the collectors

    The development follows the Go packages of the exporter:

    - [strings], [math], [gjson], [http], [prometheus]: the parts of the
      Go libraries that the collectors call, modelled on values;
    - [nest]: [pkg/collectors/nest/nest.go], the thermostat collector;
    - [nestapp]: [pkg/collectors/nestapp/nestapp.go], the collector for the
      API of the Nest app (temperature sensors, structures);
    - [pkg]: [pkg/pronestheus.go], the registration of the collectors.

    Network and clock are an explicit environment: the n-th call of
    [client.Do] and the n-th call of [time.Now] are answered by functions
    of n, and every request that leaves the process is recorded.  The
    logger is a sink outside this development and its calls are left out. *)

From Stdlib Require Import ZArith String Ascii List Lia Permutation.
From Stdlib Require Import Floats.SpecFloat.
From stdpp Require Import gmap strings list fin_maps pretty.

Open Scope string_scope.
Set Warnings "-register-all".

(** ** Go's [strings] package *)

Module strings.

(** [strings.HasPrefix(s, prefix)] *)
Definition HasPrefix (s prefix : string) : bool := String.prefix prefix s.

Fixpoint drop (n : nat) (s : string) : string :=
  match n, s with
  | O, _ => s
  | S n', String _ t => drop n' t
  | S _, EmptyString => EmptyString
  end.

(** [strings.TrimPrefix(s, prefix)]: [s] without the leading [prefix],
    or [s] itself when it does not start with [prefix]. *)
Definition TrimPrefix (s prefix : string) : string :=
  if HasPrefix s prefix then drop (String.length prefix) s else s.

(** [strings.Contains(s, substr)] *)
Fixpoint Contains (s substr : string) : bool :=
  HasPrefix s substr ||
  match s with
  | EmptyString => false
  | String _ t => Contains t substr
  end.

(** [strings.Replace(s, old, new, -1)] for a one-byte [old] and a
    one-byte [new]: every occurrence is replaced. *)
Fixpoint ReplaceByte (s : string) (old new : ascii) : string :=
  match s with
  | EmptyString => EmptyString
  | String c t =>
      String (if Ascii.eqb c old then new else c) (ReplaceByte t old new)
  end.

(** [strings.TrimRight(s, cutset)] for a one-byte cutset. *)
Fixpoint TrimRightByte (s : string) (cut : ascii) : string :=
  match s with
  | EmptyString => EmptyString
  | String c t =>
      match TrimRightByte t cut with
      | EmptyString => if Ascii.eqb c cut then EmptyString else String c EmptyString
      | t' => String c t'
      end
  end.

End strings.

(** ** Go's [float64] and the [math] package

    A [float64] is an IEEE 754 binary64 value; [spec_float] is the
    Standard Library's inductive description of such values. *)

Definition float64 : Type := spec_float.

Module math.
Definition NaN : float64 := S754_nan.
Definition IsNaN (f : float64) : bool :=
  match f with S754_nan => true | _ => false end.
End math.

Definition f64_zero : float64 := S754_zero false.
Definition f64_one : float64 := S754_finite false 4503599627370496 (-52).

(** [b2f], declared identically in both collector packages. *)
Definition b2f (b : bool) : float64 := if b then f64_one else f64_zero.

(** ** [github.com/tidwall/gjson]

    A document is kept as the tree that gjson reads from the text.  A
    scalar carries the three views the library offers of it ([String()],
    [Float()], [Int()]); an array or an object carries its raw text, which
    is what [String()] returns for it. *)

Module gjson.

Inductive Value : Type :=
| Null
| Bool (b : bool)
| Number (str : string) (num : float64) (int : Z)
| Str (str : string) (num : float64) (int : Z)
| Array (raw : string) (elems : list Value)
| Object (raw : string) (members : list (string * Value)).

(** A [gjson.Result]: [None] is the result of a path that matches
    nothing, for which [Exists()] is false. *)
Definition Result : Type := option Value.

Definition Exists (r : Result) : bool :=
  match r with Some _ => true | None => false end.

Definition String (r : Result) : string :=
  match r with
  | None | Some Null => ""
  | Some (Bool true) => "true"
  | Some (Bool false) => "false"
  | Some (Number s _ _) | Some (Str s _ _) => s
  | Some (Array raw _) | Some (Object raw _) => raw
  end.

Definition Float (r : Result) : float64 :=
  match r with
  | Some (Bool true) => f64_one
  | Some (Number _ f _) | Some (Str _ f _) => f
  | _ => f64_zero
  end.

Definition Int (r : Result) : Z :=
  match r with
  | Some (Bool true) => 1%Z
  | Some (Number _ _ i) | Some (Str _ _ i) => i
  | _ => 0%Z
  end.

Fixpoint member (key : string) (ms : list (string * Value)) : Result :=
  match ms with
  | [] => None
  | (k, v) :: rest => if String.eqb k key then Some v else member key rest
  end.

(** [r.Get(key)] for a path of one plain component: the first member
    of that name when [r] is an object, nothing otherwise. *)
Definition Get (r : Result) (key : string) : Result :=
  match r with
  | Some (Object _ ms) => member key ms
  | _ => None
  end.

(** [r.Get("a.b.c")], the path given by its components (a component
    written [sdm\\.devices\\.traits\\.Info] in the source is the one
    name [sdm.devices.traits.Info]). *)
Definition GetPath (r : Result) (path : list string) : Result :=
  fold_left Get path r.

(** [r.ForEach(f)] with an [f] that always returns true: the pairs of
    key and value handed to [f], in order.  The key is given by its
    [String()]: the member name in an object, the decimal index in an
    array, and the empty string for the single call made on a scalar. *)
Definition ForEach (r : Result) : list (string * Value) :=
  match r with
  | None => []
  | Some (Array _ es) => imap (fun i e => (pretty i, e)) es
  | Some (Object _ ms) => ms
  | Some v => [("", v)]
  end.

(** [r.Array()] *)
Definition ToArray (r : Result) : list Value :=
  match r with
  | None | Some Null => []
  | Some (Array _ es) => es
  | Some v => [v]
  end.

End gjson.

(** ** Errors

    [New] is [errors.New] (and [fmt.Errorf] without [%w]); [Wrap] is
    [errors.Wrap(cause, msg)] of [github.com/pkg/errors]; [Errorf] is
    [fmt.Errorf("msg: %w", err)]. *)

Inductive error : Type :=
| New (msg : string)
| Wrap (cause : error) (msg : string)
| Errorf (msg : string) (wrapped : error).

(** What a Go function with an [error] result gives back.  [Panic] is a
    run-time panic (a nil dereference, a write to a nil map). *)
Inductive outcome (A : Type) : Type :=
| Ok (a : A)
| Err (e : error)
| Panic.
Arguments Ok {A} a.
Arguments Err {A} e.
Arguments Panic {A}.

(** ** [net/http] and the environment of a collector *)

Module http.

Record Request : Type := mkRequest {
  Method : string;
  URL : string;
  Header : list (string * string);
  Body : string
}.

(** What [ioutil.ReadAll(res.Body)] gives: an error, or the text of
    the body together with the document gjson reads from it. *)
Inductive ReadAll : Type :=
| ReadErr (msg : string)
| ReadOk (text : string) (doc : gjson.Value).

Record Response : Type := mkResponse {
  StatusCode : Z;
  ResBody : ReadAll
}.

(** What [client.Do(req)] gives. *)
Inductive Reply : Type :=
| Failed (msg : string)
| Replied (res : Response).

End http.

(** An instant is a number of nanoseconds since the Unix epoch. *)
Definition Instant : Type := Z.

Module time.
Definition Duration : Type := Z.
Definition Second : Duration := 1000000000%Z.
Definition Minute : Duration := (60 * Second)%Z.
(** [t.Add(d)] *)
Definition Add (t : Instant) (d : Duration) : Instant := (t + d)%Z.
(** [t.Before(u)] *)
Definition Before (t u : Instant) : bool := (t <? u)%Z.
(** [time.Unix(sec, 0)] *)
Definition Unix (sec : Z) : Instant := (sec * Second)%Z.
(** The zero [time.Time]: January 1 of year 1, 00:00 UTC. *)
Definition zero : Instant := (-62135596800 * Second)%Z.
End time.

(** The world outside the process.  [Now n] is what the n-th call of
    [time.Now()] returns, [Do n req] what the n-th round trip of an HTTP
    client returns when it carries [req]; [NewRequest] tells whether
    [http.NewRequest] accepts a URL ([None]) or fails with a message;
    [ParseRequestURI] and [ParseRFC3339] are [url.ParseRequestURI] and
    [time.Parse(time.RFC3339, _)]. *)
Record Env : Type := mkEnv {
  Now : nat → Instant;
  Do : nat → http.Request → http.Reply;
  NewRequest : string → option string;
  ParseRequestURI : string → option string;
  ParseRFC3339 : string → option Instant
}.

(** The part of the world a collector changes: how often the clock was
    read, how many round trips were made, and the requests sent so far
    (oldest first). *)
Record World : Type := mkWorld {
  ticks : nat;
  trips : nat;
  sent : list http.Request
}.

Definition world0 : World := mkWorld 0 0 [].

(** [time.Now()] *)
Definition timeNow (env : Env) (w : World) : Instant * World :=
  (Now env (ticks w), mkWorld (S (ticks w)) (trips w) (sent w)).

(** [client.Do(req)] *)
Definition clientDo (env : Env) (req : http.Request) (w : World)
  : http.Reply * World :=
  (Do env (trips w) req, mkWorld (ticks w) (S (trips w)) (sent w ++ [req])).

(** ** [prometheus]: descriptors and constant metrics *)

Module prometheus.

Record Desc : Type := NewDesc {
  fqName : string;
  help : string;
  variableLabels : list string
}.

(** [prometheus.MustNewConstMetric(desc, prometheus.GaugeValue, value,
    labelValues...)] *)
Record Metric : Type := MustNewConstMetric {
  desc : Desc;
  value : float64;
  labelValues : list string
}.

End prometheus.

(** ** [pkg/collectors/nest]: the thermostat collector *)

Module nest.

Import prometheus.

Definition errNon200Response : error := New "nest API responded with non-200 code".
Definition errFailedParsingURL : error := New "failed parsing OpenWeatherMap API URL".
Definition errFailedUnmarshalling : error := New "failed unmarshalling Nest API response body".
Definition errFailedRequest : error := New "failed Nest API request".
Definition errFailedReadingBody : error := New "failed reading Nest API response body".

Record Thermostat : Type := mkThermostat {
  ID : string;
  Room : string;
  Label : string;
  Online : bool;
  AmbientTemp : float64;
  SetpointTemp : float64;
  Humidity : float64;
  Status : string
}.

(** [Config].  The last field is the one [registerNestCollector] of
    [pkg/pronestheus.go] fills in; the struct declared in [nest.go] has no
    such field and nothing in [nest.go] reads it. *)
Record Config : Type := mkConfig {
  Timeout : Z;
  APIURL : string;
  OAuthClientID : string;
  OAuthClientSecret : string;
  RefreshToken : string;
  ProjectID : string;
  OAuthToken : option string;
  ReplaceSpacesWithDashesInLabel : bool
}.

Record Metrics : Type := mkMetrics {
  up : Desc;
  online : Desc;
  ambientTemp : Desc;
  setpointTemp : Desc;
  humidity : Desc;
  heating : Desc
}.

(** The OAuth2 client and the logger of the Go struct belong to the
    environment. *)
Record Collector : Type := mkCollector {
  url : string;
  metrics : Metrics
}.

Definition buildMetrics : Metrics :=
  let nestLabels := ["id"; "room"; "label"] in
  {| up := NewDesc (String.concat "_" ["nest"; "up"]) "Was talking to Nest API successful." [];
     online := NewDesc (String.concat "_" ["nest"; "online"]) "Is the thermostat online." nestLabels;
     ambientTemp := NewDesc (String.concat "_" ["nest"; "ambient"; "temperature"; "celsius"]) "Inside temperature." nestLabels;
     setpointTemp := NewDesc (String.concat "_" ["nest"; "setpoint"; "temperature"; "celsius"]) "Setpoint temperature." nestLabels;
     humidity := NewDesc (String.concat "_" ["nest"; "humidity"; "percent"]) "Inside humidity." nestLabels;
     heating := NewDesc (String.concat "_" ["nest"; "heating"]) "Is thermostat heating." nestLabels |}.

Definition New (env : Env) (cfg : Config) : outcome Collector :=
  match ParseRequestURI env (APIURL cfg) with
  | Some msg => Err (Wrap errFailedParsingURL msg)
  | None =>
      Ok {| url := strings.TrimRightByte (APIURL cfg) "/"
                   ++ "/enterprises/" ++ ProjectID cfg ++ "/devices/";
            metrics := buildMetrics |}
  end.

(** [Describe] *)
Definition Describe (c : Collector) : list Desc :=
  [up (metrics c); online (metrics c); ambientTemp (metrics c);
   setpointTemp (metrics c); humidity (metrics c); heating (metrics c)].

Definition typeThermostat : string := "sdm.devices.types.THERMOSTAT".
Definition pathHeatCelsius : list string :=
  ["traits"; "sdm.devices.traits.ThermostatTemperatureSetpoint"; "heatCelsius"].

(** The loop over [parentRelations]: the display name of the first
    relation whose parent contains ["/rooms/"], or the empty string. *)
Fixpoint roomOf (parents : list gjson.Value) : string :=
  match parents with
  | [] => ""
  | parent :: rest =>
      if strings.Contains (gjson.String (gjson.Get (Some parent) "parent")) "/rooms/"
      then gjson.String (gjson.Get (Some parent) "displayName")
      else roomOf rest
  end.

(** The body of the callback of [getNestReadings] after the check of
    the device type. *)
Definition thermostatOf (device : gjson.Value) : Thermostat :=
  let d := Some device in
  let heatSetPoint :=
    let v := gjson.GetPath d pathHeatCelsius in
    if gjson.Exists v then gjson.Float v else math.NaN in
  let room := roomOf (gjson.ToArray (gjson.Get d "parentRelations")) in
  {| ID := gjson.String (gjson.Get d "name");
     Room := room;
     Label := gjson.String (gjson.GetPath d ["traits"; "sdm.devices.traits.Info"; "customName"]);
     Online := String.eqb (gjson.String (gjson.GetPath d ["traits"; "sdm.devices.traits.Connectivity"; "status"])) "ONLINE";
     AmbientTemp := gjson.Float (gjson.GetPath d ["traits"; "sdm.devices.traits.Temperature"; "ambientTemperatureCelsius"]);
     SetpointTemp := heatSetPoint;
     Humidity := gjson.Float (gjson.GetPath d ["traits"; "sdm.devices.traits.Humidity"; "ambientHumidityPercent"]);
     Status := gjson.String (gjson.GetPath d ["traits"; "sdm.devices.traits.ThermostatHvac"; "status"]) |}.

Definition isThermostat (device : gjson.Value) : bool :=
  String.eqb (gjson.String (gjson.Get (Some device) "type")) typeThermostat.

(** One call of the callback: a device that is not a thermostat leaves
    the slice as it is, a thermostat is appended. *)
Definition visitDevice (thermostats : list Thermostat) (kv : string * gjson.Value)
  : list Thermostat :=
  if negb (isThermostat kv.2) then thermostats
  else thermostats ++ [thermostatOf kv.2].

(** The [ForEach] over ["devices"], starting from the nil slice. *)
Definition parseDevices (doc : gjson.Value) : list Thermostat :=
  fold_left visitDevice (gjson.ForEach (gjson.Get (Some doc) "devices")) [].

Definition getNestReadings (env : Env) (c : Collector) (w : World)
  : outcome (list Thermostat) * World :=
  let '(reply, w) := clientDo env (http.mkRequest "GET" (url c) [] "") w in
  match reply with
  | http.Failed msg => (Err (Wrap errFailedRequest msg), w)
  | http.Replied res =>
      if negb (http.StatusCode res =? 200)%Z
      then (Err (Wrap errNon200Response ("code: " ++ pretty (http.StatusCode res))), w)
      else
        match http.ResBody res with
        | http.ReadErr msg => (Err (Wrap errFailedReadingBody msg), w)
        | http.ReadOk _ doc =>
            let thermostats := parseDevices doc in
            if (List.length thermostats =? 0)%nat
            then (Err (Wrap errFailedUnmarshalling "no valid thermostats in devices list"), w)
            else (Ok thermostats, w)
        end
  end.

Definition space : ascii := " "%char.
Definition dash : ascii := "-"%char.

(** The label values of one thermostat, as [Collect] builds them. *)
Definition labelsOf (therm : Thermostat) : list string :=
  [ID therm; Room therm; strings.ReplaceByte (Label therm) space dash].

(** One turn of the loop of [Collect]: what it sends on the channel. *)
Definition collectThermostat (m : Metrics) (therm : Thermostat) : list Metric :=
  let labels := labelsOf therm in
  MustNewConstMetric (online m) (b2f (Online therm)) labels ::
  if negb (Online therm) then []
  else
    MustNewConstMetric (ambientTemp m) (AmbientTemp therm) labels ::
    (if negb (math.IsNaN (SetpointTemp therm))
     then [MustNewConstMetric (setpointTemp m) (SetpointTemp therm) labels]
     else []) ++
    [MustNewConstMetric (humidity m) (Humidity therm) labels;
     MustNewConstMetric (heating m) (b2f (String.eqb (Status therm) "HEATING")) labels].

Fixpoint collectLoop (m : Metrics) (thermostats : list Thermostat) : list Metric :=
  match thermostats with
  | [] => []
  | therm :: rest => collectThermostat m therm ++ collectLoop m rest
  end.

(** [Collect]: the metrics sent on the channel, in order. *)
Definition Collect (env : Env) (c : Collector) (w : World) : list Metric * World :=
  match getNestReadings env c w with
  | (Ok thermostats, w) =>
      (MustNewConstMetric (up (metrics c)) f64_one [] ::
       collectLoop (metrics c) thermostats, w)
  | (_, w) => ([MustNewConstMetric (up (metrics c)) f64_zero []], w)
  end.

End nest.

(** ** [pkg/collectors/nestapp]: the collector for the Nest app API *)

Module nestapp.

Import prometheus.

Definition errNon200Response : error := New "nest app API responded with non-200 code".
Definition errFailedUnmarshalling : error := New "failed unmarshalling Nest app API response body".
Definition errFailedRequest : error := New "failed Nest app API request".
Definition errFailedReadingBody : error := New "failed reading Nest app API response body".

Record Config : Type := mkConfig {
  Timeout : Z;
  AuthURL : string;
  AuthCookies : string
}.

Record Metrics : Type := mkMetrics {
  up : Desc;
  temp : Desc;
  batteryLevel : Desc;
  outsideTemp : Desc
}.

(** The session of the collector is the three fields [accessToken],
    [accessTokenValidUntil] and [userId]. *)
Record Collector : Type := mkCollector {
  config : Config;
  accessToken : string;
  accessTokenValidUntil : Instant;
  userId : string;
  metrics : Metrics
}.

Definition buildMetrics : Metrics :=
  let sensorLabels := ["serial"; "structure"; "where"] in
  let structureLabels := ["id"; "name"] in
  {| up := NewDesc "nest_app_up" "Was talking to Nest app API successful." [];
     temp := NewDesc "nest_temp_sensor_temperature_celsius" "Temperature Sensor temperature" sensorLabels;
     batteryLevel := NewDesc "nest_temp_sensor_battery" "Temperature Sensor battery level (0-100)" sensorLabels;
     outsideTemp := NewDesc "nest_outside_temperature_celsius" "Outside temperature" structureLabels |}.

(** [Describe] *)
Definition Describe (c : Collector) : list Desc :=
  [up (metrics c); temp (metrics c); batteryLevel (metrics c); outsideTemp (metrics c)].

(** *** Authentication *)

Definition googleTokenRequest (c : Collector) : http.Request :=
  http.mkRequest "GET" (AuthURL (config c))
    [("Cookie", AuthCookies (config c)); ("X-Requested-With", "XmlHttpRequest")] "".

Definition getGoogleAccessToken (env : Env) (c : Collector) (w : World)
  : outcome string * World :=
  match NewRequest env (AuthURL (config c)) with
  | Some msg => (Err (Errorf "Failed to create GET request" (New msg)), w)
  | None =>
      let '(reply, w) := clientDo env (googleTokenRequest c) w in
      match reply with
      | http.Failed msg => (Err (Errorf "Request failed" (New msg)), w)
      | http.Replied res =>
          match http.ResBody res with
          | http.ReadErr msg => (Err (Errorf "Failed to read response body" (New msg)), w)
          | http.ReadOk _ doc =>
              let errorId := gjson.Get (Some doc) "error" in
              if gjson.Exists errorId
              then (Err (New (gjson.String errorId ++ ": "
                              ++ gjson.String (gjson.Get (Some doc) "error_description"))), w)
              else
                let accessToken := gjson.String (gjson.Get (Some doc) "access_token") in
                if String.eqb accessToken ""
                then (Err (New "No access token in the response"), w)
                else (Ok accessToken, w)
          end
      end
  end.

Definition issueJwtURL : string :=
  "https://nestauthproxyservice-pa.googleapis.com/v1/issue_jwt".

(** The double quote of the JSON text of a request body. *)
Definition dq : string := String (ascii_of_nat 34) EmptyString.
Definition lf : string := String (ascii_of_nat 10) EmptyString.

Definition jwtRequestBody (googleAccessToken : string) : string :=
  "{" ++ dq ++ "embed_google_oauth_access_token" ++ dq ++ ": true," ++ lf
  ++ dq ++ "expire_after" ++ dq ++ ": " ++ dq ++ "3600s" ++ dq ++ "," ++ lf
  ++ dq ++ "google_oauth_access_token" ++ dq ++ ": " ++ dq ++ googleAccessToken ++ dq ++ "," ++ lf
  ++ dq ++ "policy_id" ++ dq ++ ": " ++ dq ++ "authproxy-oauth-policy" ++ dq ++ lf
  ++ "}".

Definition jwtRequest (googleAccessToken : string) : http.Request :=
  http.mkRequest "POST" issueJwtURL
    [("Authorization", "Bearer " ++ googleAccessToken);
     ("Content-Type", "application/json");
     ("X-Requested-With", "XmlHttpRequest")]
    (jwtRequestBody googleAccessToken).


(** [getNestJwt].  Every failing return reads the clock for the instant
    it hands back beside the error. *)
Definition getNestJwt (env : Env) (c : Collector) (googleAccessToken : string) (w : World)
  : outcome (string * string * Instant) * World :=
  let fail (e : error) (w : World) : outcome (string * string * Instant) * World :=
    let '(_, w) := timeNow env w in (Err e, w) in
  match NewRequest env issueJwtURL with
  | Some msg => fail (Errorf "Failed to create POST request" (New msg)) w
  | None =>
      let '(reply, w) := clientDo env (jwtRequest googleAccessToken) w in
      match reply with
      | http.Failed msg => fail (Errorf "Request failed" (New msg)) w
      | http.Replied res =>
          match http.ResBody res with
          | http.ReadErr msg => fail (Errorf "Failed to read response body" (New msg)) w
          | http.ReadOk bodyString doc =>
              let errorId := gjson.Get (Some doc) "error" in
              if gjson.Exists errorId
              then fail (New (gjson.String errorId ++ ": "
                              ++ gjson.String (gjson.Get (Some doc) "error_description"))) w
              else
                let jwt := gjson.String (gjson.Get (Some doc) "jwt") in
                if String.eqb jwt EmptyString
                then fail (New ("No JWT in the response: " ++ bodyString)) w
                else
                  let userId := gjson.String
                    (gjson.GetPath (Some doc) ["claims"; "subject"; "nestId"; "id"]) in
                  if String.eqb userId EmptyString
                  then fail (New ("No user ID (claims.subject.nestId.id) in the response: "
                                  ++ bodyString)) w
                  else
                    let expirationStr := gjson.String
                      (gjson.GetPath (Some doc) ["claims"; "expirationTime"]) in
                    if String.eqb expirationStr EmptyString
                    then fail (New ("No access token expiration time (claims.expirationTime) in the response: "
                                    ++ bodyString)) w
                    else
                      match ParseRFC3339 env expirationStr with
                      | None =>
                          fail (Errorf ("Failed to parse access token expiration time ("
                                        ++ expirationStr ++ ")")
                                  (New "parsing time")) w
                      | Some expirationInstant =>
                          (Ok (jwt, userId, expirationInstant), w)
                      end
          end
      end
  end.

(** [reauth]: [Ok tt] is the nil error.  The three fields of the
    session are assigned after both steps have succeeded. *)
Definition reauth (env : Env) (c : Collector) (w : World)
  : outcome unit * Collector * World :=
  match getGoogleAccessToken env c w with
  | (Ok googleAccessToken, w) =>
      match getNestJwt env c googleAccessToken w with
      | (Ok (jwt, userId, jwtExpirationInstant), w) =>
          (Ok tt,
           {| config := config c;
              accessToken := jwt;
              accessTokenValidUntil := jwtExpirationInstant;
              userId := userId;
              metrics := metrics c |},
           w)
      | (Err err, w) => (Err (Errorf "Failed to get Nest access token" err), c, w)
      | (Panic, w) => (Panic, c, w)
      end
  | (Err err, w) => (Err (Errorf "Failed to get Google Account access token" err), c, w)
  | (Panic, w) => (Panic, c, w)
  end.

(** [New]: the collector starts with the zero session and must
    authenticate once. *)
Definition New (env : Env) (cfg : Config) (w : World) : outcome Collector * World :=
  let collector :=
    {| config := cfg; accessToken := EmptyString; accessTokenValidUntil := time.zero;
       userId := EmptyString; metrics := buildMetrics |} in
  match reauth env collector w with
  | (Ok _, collector, w) => (Ok collector, w)
  | (Err err, _, w) => (Err (Errorf "Failed to authenticate to Nest API" err), w)
  | (Panic, _, w) => (Panic, w)
  end.

(** *** Readings *)

Record NestTemperatureSensor : Type := mkSensor {
  SerialNumber : string;
  StructureName : string;
  WhereName : string;
  LastUpdatedAt : Instant;
  Temperature : float64;
  BatteryLevel : Z
}.

(** A Go map is a reference: a [Structure] copied out of [structures]
    shares its [WhereNames] with the entry it was copied from.  The maps
    made by [make(map[string]string)] live in a store, and [WhereNames]
    is the index of one of them; [None] is the nil map of the zero
    [Structure]. *)
Record Structure : Type := mkStructure {
  Id : string;
  Name : string;
  WhereNames : option nat;
  OutsideTemperature : float64
}.

Abbreviation Store := (list (gmap string string)).

Definition zeroStructure : Structure :=
  mkStructure EmptyString EmptyString None f64_zero.

(** [m[k]] on a map that may be nil: the empty string when [k] is not
    in it. *)
Definition mapRead (store : Store) (m : option nat) (k : string) : string :=
  match m with
  | None => EmptyString
  | Some l => default EmptyString (store !! l ≫= lookup k)
  end.

(** [m[k] = v]: a write to the nil map panics ([None]). *)
Definition mapWrite (store : Store) (m : option nat) (k v : string) : option Store :=
  match m with
  | None => None
  | Some l => Some (alter (insert k v) l store)
  end.

(** [structures[id]] without the comma-ok form: the zero value when
    [id] is not a key. *)
Definition lookupOrZero (structures : gmap string Structure) (id : string) : Structure :=
  default zeroStructure (structures !! id).

Record Readings : Type := mkReadings {
  structures : list Structure;
  sensors : list NestTemperatureSensor
}.

(** First [ForEach]: one call of the callback that collects the
    [structure.*] buckets. *)
Definition visitStructure (st : gmap string Structure * Store) (kv : string * gjson.Value)
  : gmap string Structure * Store :=
  let obj := Some kv.2 in
  let objKey := gjson.String (gjson.Get obj "object_key") in
  if strings.HasPrefix objKey "structure." then
    let v := gjson.Get obj "value" in
    if gjson.Exists v then
      let id := strings.TrimPrefix objKey "structure." in
      (<[id := {| Id := id;
                  Name := gjson.String (gjson.Get v "name");
                  WhereNames := Some (List.length st.2);
                  OutsideTemperature := math.NaN |}]> st.1,
       (st.2 ++ [∅])%list)
    else st
  else st.

(** The inner [ForEach] over ["wheres"]: one call of its callback,
    writing through the [structure] copied out of the map. *)
Definition visitWhereEntry (structure : Structure) (store : option Store)
    (kv : string * gjson.Value) : option Store :=
  store ← store;
  let obj := Some kv.2 in
  let whereId := gjson.Get obj "where_id" in
  if gjson.Exists whereId
  then mapWrite store (WhereNames structure) (gjson.String whereId)
         (gjson.String (gjson.Get obj "name"))
  else Some store.

(** Second [ForEach]: one call of the callback for the [where.*]
    buckets. *)
Definition visitWhere (structures : gmap string Structure) (store : option Store)
    (kv : string * gjson.Value) : option Store :=
  let obj := Some kv.2 in
  let objKey := gjson.String (gjson.Get obj "object_key") in
  if strings.HasPrefix objKey "where." then
    let v := gjson.Get obj "value" in
    if gjson.Exists v then
      let id := strings.TrimPrefix objKey "where." in
      match structures !! id with
      | Some structure =>
          fold_left (visitWhereEntry structure) (gjson.ForEach (gjson.Get v "wheres")) store
      | None => store
      end
    else store
  else store.

(** Third [ForEach]: one call of the callback for the [kryptonite.*]
    buckets. *)
Definition visitSensor (structures : gmap string Structure) (store : Store)
    (sensors : list NestTemperatureSensor) (kv : string * gjson.Value)
  : list NestTemperatureSensor :=
  let obj := Some kv.2 in
  let objKey := gjson.String (gjson.Get obj "object_key") in
  if strings.HasPrefix objKey "kryptonite." then
    let v := gjson.Get obj "value" in
    if gjson.Exists v then
      let structure := lookupOrZero structures (gjson.String (gjson.Get v "structure_id")) in
      sensors ++
      [{| SerialNumber := gjson.String (gjson.Get v "serial_number");
          LastUpdatedAt := time.Unix (gjson.Int (gjson.Get v "last_updated_at"));
          Temperature := gjson.Float (gjson.Get v "current_temperature");
          BatteryLevel := gjson.Int (gjson.Get v "battery_level");
          StructureName := Name structure;
          WhereName := mapRead store (WhereNames structure)
                         (gjson.String (gjson.Get v "where_id")) |}]
    else sensors
  else sensors.

(** The [ForEach] over ["weather_for_structures"]: one call of its
    callback. *)
Definition visitWeather (structures : gmap string Structure) (kv : string * gjson.Value)
  : gmap string Structure :=
  let '(key, value) := kv in
  if strings.HasPrefix key "structure." then
    let structureId := strings.TrimPrefix key "structure." in
    match structures !! structureId with
    | Some structure =>
        let current := gjson.Get (Some value) "current" in
        if gjson.Exists current then
          let tempC := gjson.Get current "temp_c" in
          if gjson.Exists tempC then
            <[structureId := {| Id := Id structure;
                                Name := Name structure;
                                WhereNames := WhereNames structure;
                                OutsideTemperature := gjson.Float tempC |}]> structures
          else structures
        else structures
    | None => structures
    end
  else structures.

(** The part of [getReadings] after the body has been read.  [None] is
    a panic.  The final loop ranges over the Go map in an order the
    language leaves open; [map_to_list] fixes one. *)
Definition parseReadings (doc : gjson.Value) : option Readings :=
  let buckets := gjson.ForEach (gjson.Get (Some doc) "updated_buckets") in
  let '(structures, store) := fold_left visitStructure buckets (∅, []) in
  store ← fold_left (visitWhere structures) buckets (Some store);
  let sensors := fold_left (visitSensor structures store) buckets [] in
  let weatherForStructures := gjson.Get (Some doc) "weather_for_structures" in
  let structures :=
    if gjson.Exists weatherForStructures
    then fold_left visitWeather (gjson.ForEach weatherForStructures) structures
    else structures in
  let structuresList := fold_left (λ l kv, (l ++ [kv.2])%list) (map_to_list structures) [] in
  Some {| structures := structuresList; sensors := sensors |}.

Definition appLaunchURL (c : Collector) : string :=
  "https://home.nest.com/api/0.1/user/" ++ userId c ++ "/app_launch".

Definition appLaunchBody : string :=
  "{" ++ dq ++ "known_bucket_types" ++ dq ++ ":["
  ++ dq ++ "structure" ++ dq ++ "," ++ dq ++ "where" ++ dq ++ "," ++ dq ++ "kryptonite" ++ dq
  ++ "]," ++ dq ++ "known_bucket_versions" ++ dq ++ ":[]}".

(** The data request, built from the session of [c]. *)
Definition appLaunchRequest (c : Collector) : http.Request :=
  http.mkRequest "POST" (appLaunchURL c)
    [("Authorization", "Basic " ++ accessToken c);
     ("Cookie", "G_ENABLED_IDPS=google; eu_cookie_accepted=1; viewer-volume=0.5; cztoken="
                ++ accessToken c ++ "; user_token=" ++ accessToken c);
     ("X-nl-user-id", userId c);
     ("X-nl-protocol-version", "1")]
    appLaunchBody.

(** [getReadings] from the comment [We probably have a valid accecss
    token -- use it] on.  The error of [http.NewRequest] is overwritten
    unread; when there is one the request is nil and setting its first
    header panics. *)
Definition requestReadings (env : Env) (c : Collector) (w : World)
  : outcome Readings * World :=
  match NewRequest env (appLaunchURL c) with
  | Some _ => (Panic, w)
  | None =>
      let '(reply, w) := clientDo env (appLaunchRequest c) w in
      match reply with
      | http.Failed msg => (Err (Wrap errFailedRequest msg), w)
      | http.Replied res =>
          if negb (http.StatusCode res =? 200)%Z
          then (Err (Wrap errNon200Response ("code: " ++ pretty (http.StatusCode res))), w)
          else
            match http.ResBody res with
            | http.ReadErr msg => (Err (Wrap errFailedReadingBody msg), w)
            | http.ReadOk _ doc =>
                match parseReadings doc with
                | Some readings => (Ok readings, w)
                | None => (Panic, w)
                end
            end
      end
  end.

(** The test that opens [getReadings]: the token is about to expire or
    has expired. *)
Definition aboutToExpire (now validUntil : Instant) : bool :=
  negb (time.Before now (time.Add validUntil (-2 * time.Minute)%Z)).

Definition getReadings (env : Env) (c : Collector) (w : World)
  : outcome Readings * Collector * World :=
  let '(now, w) := timeNow env w in
  if aboutToExpire now (accessTokenValidUntil c) then
    match reauth env c w with
    | (Ok _, c, w) =>
        let '(r, w) := requestReadings env c w in (r, c, w)
    | (Err err, c, w) =>
        let '(now, w) := timeNow env w in
        if negb (time.Before now (accessTokenValidUntil c))
        then (Err (Errorf "Failed to re-authenticate to Nest API" err), c, w)
        else let '(r, w) := requestReadings env c w in (r, c, w)
    | (Panic, c, w) => (Panic, c, w)
    end
  else
    let '(r, w) := requestReadings env c w in (r, c, w).

(** [float64(i)] for an [int64]. *)
Definition float64_of_int (i : Z) : float64 := binary_normalize 53%Z 1024%Z i 0%Z false.

Fixpoint collectSensors (m : Metrics) (sensors : list NestTemperatureSensor) : list Metric :=
  match sensors with
  | [] => []
  | sensor :: rest =>
      let labels := [SerialNumber sensor; StructureName sensor; WhereName sensor] in
      MustNewConstMetric (temp m) (Temperature sensor) labels ::
      MustNewConstMetric (batteryLevel m) (float64_of_int (BatteryLevel sensor)) labels ::
      collectSensors m rest
  end.

Fixpoint collectStructures (m : Metrics) (structures : list Structure) : list Metric :=
  match structures with
  | [] => []
  | structure :: rest =>
      let labels := [Id structure; Name structure] in
      (if negb (math.IsNaN (OutsideTemperature structure))
       then [MustNewConstMetric (outsideTemp m) (OutsideTemperature structure) labels]
       else []) ++ collectStructures m rest
  end.

(** [Collect]: [None] when the scrape panics, else what is sent on
    the channel. *)
Definition Collect (env : Env) (c : Collector) (w : World)
  : option (list Metric) * Collector * World :=
  match getReadings env c w with
  | (Ok readings, c, w) =>
      (Some (MustNewConstMetric (up (metrics c)) f64_one [] ::
             collectSensors (metrics c) (sensors readings) ++
             collectStructures (metrics c) (structures readings)), c, w)
  | (Err _, c, w) => (Some [MustNewConstMetric (up (metrics c)) f64_zero []], c, w)
  | (Panic, c, w) => (None, c, w)
  end.

End nestapp.

(** ** [pkg/pronestheus.go]: registration of the collectors *)

Module pkg.

(** [ExporterConfig].  The string and integer fields are pointers the
    flag parser always sets; [NestOAuthToken] and [NestLabelSpaceToDash]
    are tested against nil before use. *)
Record ExporterConfig : Type := mkExporterConfig {
  ListenAddr : string;
  MetricsPath : string;
  Timeout : Z;
  NestURL : string;
  NestOAuthClientID : string;
  NestOAuthClientSecret : string;
  NestOAuthToken : option string;
  NestProjectID : string;
  NestRefreshToken : string;
  NestLabelSpaceToDash : option bool;
  WeatherLocation : string;
  WeatherURL : string;
  WeatherToken : string;
  NestGoogleAuthURL : option string;
  NestGoogleAuthCookies : option string
}.

(** The [nest.Config] that [registerNestCollector] hands to [nest.New]. *)
Definition nestConfig (cfg : ExporterConfig) : nest.Config :=
  let replaceSpacesWithDashesInLabel :=
    match NestLabelSpaceToDash cfg with
    | Some b => b
    | None => false
    end in
  {| nest.Timeout := Timeout cfg;
     nest.APIURL := NestURL cfg;
     nest.OAuthClientID := NestOAuthClientID cfg;
     nest.OAuthClientSecret := NestOAuthClientSecret cfg;
     nest.RefreshToken := NestRefreshToken cfg;
     nest.ProjectID := NestProjectID cfg;
     nest.OAuthToken := NestOAuthToken cfg;
     nest.ReplaceSpacesWithDashesInLabel := replaceSpacesWithDashesInLabel |}.

(** [registerNestCollector]: the collector handed to
    [prometheus.Register], or the error of [nest.New]. *)
Definition registerNestCollector (env : Env) (cfg : ExporterConfig)
  : outcome nest.Collector :=
  nest.New env (nestConfig cfg).


End pkg.

(** * Sample documents and environments *)

Module sample.

(** A JSON string that is not a number: [Float()] and [Int()] give 0. *)
Definition str (s : string) : gjson.Value := gjson.Str s f64_zero 0.
Definition num (s : string) (f : float64) (i : Z) : gjson.Value := gjson.Number s f i.
Definition obj (ms : list (string * gjson.Value)) : gjson.Value := gjson.Object "{...}" ms.
Definition arr (es : list gjson.Value) : gjson.Value := gjson.Array "[...]" es.

(** 21.5 and 48 as binary64 values. *)
Definition f21_5 : float64 := S754_finite false 6051711999279104 (-48).
Definition f48 : float64 := S754_finite false 6755399441055744 (-47).
Definition f19 : float64 := S754_finite false 5348024557502464 (-48).

(** A device of the Smart Device Management API.  [setpoint] is the
    member list of the setpoint trait. *)
Definition device (type name label status hvac : string)
    (setpoint : list (string * gjson.Value)) : gjson.Value :=
  obj [("name", str name);
       ("type", str type);
       ("traits", obj
          [("sdm.devices.traits.Info", obj [("customName", str label)]);
           ("sdm.devices.traits.Connectivity", obj [("status", str status)]);
           ("sdm.devices.traits.Temperature",
              obj [("ambientTemperatureCelsius", num "21.5" f21_5 21)]);
           ("sdm.devices.traits.Humidity",
              obj [("ambientHumidityPercent", num "48" f48 48)]);
           ("sdm.devices.traits.ThermostatHvac", obj [("status", str hvac)]);
           ("sdm.devices.traits.ThermostatTemperatureSetpoint", obj setpoint)]);
       ("parentRelations", arr
          [obj [("parent", str "enterprises/p/structures/s/rooms/r");
                ("displayName", str "Lounge")]])].

Definition thermostatOnline : gjson.Value :=
  device nest.typeThermostat "enterprises/p/devices/d1" "Living Room" "ONLINE" "COOLING" [].
Definition thermostatOffline : gjson.Value :=
  device nest.typeThermostat "enterprises/p/devices/d2" "Hall" "OFFLINE" "OFF"
    [("heatCelsius", num "19" f19 19)].
Definition camera : gjson.Value :=
  device "sdm.devices.types.CAMERA" "enterprises/p/devices/d3" "Door" "ONLINE" "OFF" [].

Definition devicesDoc (ds : list gjson.Value) : gjson.Value :=
  obj [("devices", arr ds)].

(** An environment whose every round trip is answered 200 with [doc],
    whose clock stands still at [t], and that accepts every URL. *)
Definition serving (doc : gjson.Value) (t : Instant) : Env :=
  {| Now := λ _, t;
     Do := λ _ _, http.Replied (http.mkResponse 200 (http.ReadOk "..." doc));
     NewRequest := λ _, None;
     ParseRequestURI := λ _, None;
     ParseRFC3339 := λ _, None |}.

(** Buckets of the Nest app API. *)
Definition structureBucket (id name : string) : gjson.Value :=
  obj [("object_key", str ("structure." ++ id));
       ("value", obj [("name", str name)])].

Definition whereBucket (id : string) (wheres : list (string * string)) : gjson.Value :=
  obj [("object_key", str ("where." ++ id));
       ("value", obj [("wheres",
          arr (map (λ e, obj [("where_id", str e.1); ("name", str e.2)]) wheres))])].

Definition sensorBucket (serial sid wid : string) : gjson.Value :=
  obj [("object_key", str ("kryptonite." ++ serial));
       ("value", obj [("serial_number", str serial);
                      ("structure_id", str sid);
                      ("where_id", str wid);
                      ("current_temperature", num "21.5" f21_5 21);
                      ("battery_level", num "79" (nestapp.float64_of_int 79) 79);
                      ("last_updated_at",
                         num "1700000000" (nestapp.float64_of_int 1700000000) 1700000000)])].

Definition bucketsDoc (bs : list gjson.Value) : gjson.Value :=
  obj [("updated_buckets", arr bs)].

(** Two structure buckets of one key, in the two orders. *)
Definition homeThenOffice : list gjson.Value :=
  [structureBucket "A" "Home"; structureBucket "A" "Office";
   whereBucket "A" [("w1", "Kitchen")]; sensorBucket "S1" "A" "w1"].
Definition officeThenHome : list gjson.Value :=
  [structureBucket "A" "Office"; structureBucket "A" "Home";
   whereBucket "A" [("w1", "Kitchen")]; sensorBucket "S1" "A" "w1"].

(** A response in which every key occurs once, and a reordering of it. *)
Definition house : list gjson.Value :=
  [structureBucket "A" "Home"; whereBucket "A" [("w1", "Kitchen"); ("w2", "Attic")];
   sensorBucket "S1" "A" "w1"; sensorBucket "S2" "A" "w2"].
Definition houseReordered : list gjson.Value :=
  [sensorBucket "S2" "A" "w2"; whereBucket "A" [("w1", "Kitchen"); ("w2", "Attic")];
   sensorBucket "S1" "A" "w1"; structureBucket "A" "Home"].

(** A sensor whose structure is not in the response. *)
Definition orphan : list gjson.Value :=
  [structureBucket "A" "Home"; sensorBucket "S9" "B" "w1";
   whereBucket "B" [("w1", "Cellar")]].

(** A collector of the Nest app API whose session expires at
    [validUntil]. *)
Definition appCollector (validUntil : Instant) : nestapp.Collector :=
  {| nestapp.config :=
       {| nestapp.Timeout := 5000;
          nestapp.AuthURL := "https://accounts.google.com/o/oauth2/iframerpc";
          nestapp.AuthCookies := "NID=x" |};
     nestapp.accessToken := "old-jwt";
     nestapp.accessTokenValidUntil := validUntil;
     nestapp.userId := "user1";
     nestapp.metrics := nestapp.buildMetrics |}.

(** The clock stands at [t]; the authentication endpoint (the only GET)
    times out; every POST is answered 200 with the buckets of [house]. *)
Definition authDown (t : Instant) : Env :=
  {| Now := λ _, t;
     Do := λ _ req,
       if String.eqb (http.Method req) "GET" then http.Failed "timeout"
       else http.Replied (http.mkResponse 200 (http.ReadOk "..." (bucketsDoc house)));
     NewRequest := λ _, None;
     ParseRequestURI := λ _, None;
     ParseRFC3339 := λ _, None |}.

(** The error of [reauth] in [authDown]. *)
Definition authDownError : error :=
  Errorf "Failed to get Google Account access token"
    (Errorf "Request failed" (New "timeout")).

(** The answers of the two steps of the token exchange. *)
Definition googleTokenDoc : gjson.Value := obj [("access_token", str "g-token")].
Definition expiration : string := "2024-01-01T13:00:00Z".
Definition jwtDoc : gjson.Value :=
  obj [("jwt", str "new-jwt");
       ("claims", obj [("subject", obj [("nestId", obj [("id", str "user2")])]);
                       ("expirationTime", str expiration)])].

(** The clock stands at [t]; the token exchange succeeds and the new
    session expires at [t] plus one hour; the data request is answered 200
    with the buckets of [house].  [accepts] is [http.NewRequest]. *)
Definition authUp (t : Instant) (accepts : string → option string) : Env :=
  {| Now := λ _, t;
     Do := λ _ req,
       if String.eqb (http.Method req) "GET"
       then http.Replied (http.mkResponse 200 (http.ReadOk "..." googleTokenDoc))
       else if String.eqb (http.URL req) nestapp.issueJwtURL
       then http.Replied (http.mkResponse 200 (http.ReadOk "..." jwtDoc))
       else http.Replied (http.mkResponse 200 (http.ReadOk "..." (bucketsDoc house)));
     NewRequest := accepts;
     ParseRequestURI := λ _, None;
     ParseRFC3339 := λ s, if String.eqb s expiration
                          then Some (t + 3600 * time.Second)%Z else None |}.

Definition acceptsAll : string → option string := λ _, None.

(** [http.NewRequest] refuses the URLs of home.nest.com. *)
Definition refusesAppLaunch : string → option string :=
  λ u, if strings.HasPrefix u "https://home.nest.com/" then Some "invalid URL" else None.

Definition appConfig : nestapp.Config :=
  {| nestapp.Timeout := 5000;
     nestapp.AuthURL := "https://accounts.google.com/o/oauth2/iframerpc";
     nestapp.AuthCookies := "NID=x" |}.

(** Noon of 1 January 2024, in nanoseconds. *)
Definition noon : Instant := 1704110400000000000%Z.

Definition nestCollector : nest.Collector :=
  nest.mkCollector "https://smartdevicemanagement.googleapis.com/v1/enterprises/p/devices/"
    nest.buildMetrics.

Definition exporterConfig (policy : option bool) : pkg.ExporterConfig :=
  {| pkg.ListenAddr := ":9777";
     pkg.MetricsPath := "/metrics";
     pkg.Timeout := 5000;
     pkg.NestURL := "https://smartdevicemanagement.googleapis.com/v1/";
     pkg.NestOAuthClientID := "id";
     pkg.NestOAuthClientSecret := "secret";
     pkg.NestOAuthToken := None;
     pkg.NestProjectID := "p";
     pkg.NestRefreshToken := "refresh";
     pkg.NestLabelSpaceToDash := policy;
     pkg.WeatherLocation := "2759794";
     pkg.WeatherURL := "http://api.openweathermap.org/data/2.5/weather";
     pkg.WeatherToken := EmptyString;
     pkg.NestGoogleAuthURL := None;
     pkg.NestGoogleAuthCookies := None |}.

End sample.

(** * Vocabulary of the statements *)

Section Vocabulary.

Import nestapp.

(** The devices the callback of [getNestReadings] is called with. *)
Definition devicesOf (doc : gjson.Value) : list gjson.Value :=
  map snd (gjson.ForEach (gjson.Get (Some doc) "devices")).

(** The reply the collector gets for its one request is a 200 whose body
    reads as [doc]. *)
Definition replies200 (env : Env) (c : nest.Collector) (w : World) (doc : gjson.Value) : Prop :=
  ∃ text, Do env (trips w) (http.mkRequest "GET" (nest.url c) [] EmptyString)
          = http.Replied (http.mkResponse 200 (http.ReadOk text doc)).

(** A request of the two-step token exchange. *)
Definition isAuthRequest (c : Collector) (req : http.Request) : Prop :=
  req = googleTokenRequest c ∨ ∃ tok, req = jwtRequest tok.

(** The first request a call of [getReadings] sends is the first request
    of the token exchange. *)
Definition reauthFirst (env : Env) (c : Collector) (w : World) : Prop :=
  ∃ rest, sent (getReadings env c w).2 = (sent w ++ googleTokenRequest c :: rest)%list.

(** ** A description of the readings without the store *)

Definition objectKey (b : gjson.Value) : string :=
  gjson.String (gjson.Get (Some b) "object_key").

Definition bucketValue (b : gjson.Value) : gjson.Result :=
  gjson.Get (Some b) "value".

(** The buckets the three loops of [getReadings] visit. *)
Definition bucketsOf (doc : gjson.Value) : list gjson.Value :=
  map snd (gjson.ForEach (gjson.Get (Some doc) "updated_buckets")).

(** Identifier and name of a [structure.*] bucket that has a value. *)
Definition structureEntry (b : gjson.Value) : option (string * string) :=
  if strings.HasPrefix (objectKey b) "structure." then
    if gjson.Exists (bucketValue b)
    then Some (strings.TrimPrefix (objectKey b) "structure.",
               gjson.String (gjson.Get (bucketValue b) "name"))
    else None
  else None.

(** Identifier and name of one element of a [wheres] list. *)
Definition whereEntry (e : gjson.Value) : option (string * string) :=
  if gjson.Exists (gjson.Get (Some e) "where_id")
  then Some (gjson.String (gjson.Get (Some e) "where_id"),
             gjson.String (gjson.Get (Some e) "name"))
  else None.

(** Structure identifier and entries of a [where.*] bucket that has a
    value. *)
Definition whereBucket (b : gjson.Value) : option (string * list (string * string)) :=
  if strings.HasPrefix (objectKey b) "where." then
    if gjson.Exists (bucketValue b)
    then Some (strings.TrimPrefix (objectKey b) "where.",
               omap whereEntry (map snd (gjson.ForEach (gjson.Get (bucketValue b) "wheres"))))
    else None
  else None.

Definition put (m : gmap string string) (e : string * string) : gmap string string :=
  <[e.1 := e.2]> m.

(** The names of the structures, a later bucket overriding an earlier
    one of the same identifier. *)
Definition structureNames (bs : list gjson.Value) : gmap string string :=
  fold_left put (omap structureEntry bs) ∅.

(** The entries of the [where.*] buckets of structure [id], in order. *)
Definition entriesFor (id : string) (bs : list gjson.Value) : list (string * string) :=
  flat_map (λ b, match whereBucket b with
                 | Some (id', es) => if decide (id' = id) then es else []
                 | None => []
                 end) bs.

Definition whereNames (id : string) (bs : list gjson.Value) : gmap string string :=
  fold_left put (entriesFor id bs) ∅.

(** The sensor read from bucket [b] when the buckets of the response
    are [bs]. *)
Definition resolve (bs : list gjson.Value) (b : gjson.Value) : option NestTemperatureSensor :=
  if strings.HasPrefix (objectKey b) "kryptonite." then
    if gjson.Exists (bucketValue b) then
      let v := bucketValue b in
      let sid := gjson.String (gjson.Get v "structure_id") in
      Some {| SerialNumber := gjson.String (gjson.Get v "serial_number");
              LastUpdatedAt := time.Unix (gjson.Int (gjson.Get v "last_updated_at"));
              Temperature := gjson.Float (gjson.Get v "current_temperature");
              BatteryLevel := gjson.Int (gjson.Get v "battery_level");
              StructureName := default EmptyString (structureNames bs !! sid);
              WhereName :=
                match structureNames bs !! sid with
                | Some _ => default EmptyString
                              (whereNames sid bs !! gjson.String (gjson.Get v "where_id"))
                | None => EmptyString
                end |}
    else None
  else None.

(** [k] is a [kryptonite.*] bucket with a value, which names the
    structure [sid] and the where [wid]. *)
Definition isSensorBucket (k : gjson.Value) (sid wid : string) : Prop :=
  strings.HasPrefix (objectKey k) "kryptonite." = true
  ∧ gjson.Exists (bucketValue k) = true
  ∧ sid = gjson.String (gjson.Get (bucketValue k) "structure_id")
  ∧ wid = gjson.String (gjson.Get (bucketValue k) "where_id").

(** [s] is the bucket [structure.sid], with a value that gives [name]. *)
Definition isStructureBucket (s : gjson.Value) (sid name : string) : Prop :=
  objectKey s = "structure." ++ sid
  ∧ gjson.Exists (bucketValue s) = true
  ∧ name = gjson.String (gjson.Get (bucketValue s) "name").

(** [w] is the bucket [where.sid], with a value whose [wheres] list has
    an element that gives [name] to [wid]. *)
Definition isWhereBucket (w : gjson.Value) (sid wid name : string) : Prop :=
  objectKey w = "where." ++ sid
  ∧ gjson.Exists (bucketValue w) = true
  ∧ ∃ e, e ∈ map snd (gjson.ForEach (gjson.Get (bucketValue w) "wheres"))
         ∧ gjson.Exists (gjson.Get (Some e) "where_id") = true
         ∧ wid = gjson.String (gjson.Get (Some e) "where_id")
         ∧ name = gjson.String (gjson.Get (Some e) "name").

(** No two [structure.*] buckets have the same key, and among the
    [where.*] buckets of one structure no where identifier is given a name
    twice. *)
Definition distinctKeys (bs : list gjson.Value) : Prop :=
  NoDup (omap structureEntry bs).*1 ∧ ∀ id, NoDup (entriesFor id bs).*1.

(** The structure and where names of the sensors of a response. *)
Definition sensorNames (doc : gjson.Value) : list (string * string * string) :=
  match parseReadings doc with
  | Some r => map (λ x, (SerialNumber x, StructureName x, WhereName x)) (sensors r)
  | None => []
  end.

(** The structures all have a map of their own, still empty. *)
Definition fresh (st : gmap string Structure * Store) : Prop :=
  (∀ id s, st.1 !! id = Some s → ∃ l, WhereNames s = Some l ∧ st.2 !! l = Some ∅)
  ∧ (∀ id1 id2 s1 s2 l,
       st.1 !! id1 = Some s1 → st.1 !! id2 = Some s2 →
       WhereNames s1 = Some l → WhereNames s2 = Some l → id1 = id2).

(** The entries written into the map at index [l] of the store. *)
Definition entriesAt (S : gmap string Structure) (l : nat) (bs : list gjson.Value)
  : list (string * string) :=
  flat_map (λ b, match whereBucket b with
                 | Some (id, es) =>
                     match S !! id with
                     | Some s => if decide (WhereNames s = Some l) then es else []
                     | None => []
                     end
                 | None => []
                 end) bs.

(** The body of the callback of the third loop, for one bucket. *)
Definition sensorOf (S : gmap string Structure) (store : Store) (b : gjson.Value)
  : option NestTemperatureSensor :=
  if strings.HasPrefix (objectKey b) "kryptonite." then
    if gjson.Exists (bucketValue b) then
      let v := bucketValue b in
      let structure := lookupOrZero S (gjson.String (gjson.Get v "structure_id")) in
      Some {| SerialNumber := gjson.String (gjson.Get v "serial_number");
              LastUpdatedAt := time.Unix (gjson.Int (gjson.Get v "last_updated_at"));
              Temperature := gjson.Float (gjson.Get v "current_temperature");
              BatteryLevel := gjson.Int (gjson.Get v "battery_level");
              StructureName := Name structure;
              WhereName := mapRead store (WhereNames structure)
                             (gjson.String (gjson.Get v "where_id")) |}
    else None
  else None.

(** A metric has as many label values as its descriptor has variable
    labels, which is what [MustNewConstMetric] insists on. *)
Definition wellLabelled (m : prometheus.Metric) : Prop :=
  List.length (prometheus.labelValues m)
  = List.length (prometheus.variableLabels (prometheus.desc m)).

(** The reply to the one request of the thermostat collector is a 200
    whose body can be read and holds a thermostat. *)
Definition healthy (env : Env) (c : nest.Collector) (w : World) : Prop :=
  ∃ doc, replies200 env c w doc
         ∧ Exists (λ d, nest.isThermostat d = true) (devicesOf doc).

(** The parent of a relation names a room. *)
Definition isRoom (parent : gjson.Value) : bool :=
  strings.Contains (gjson.String (gjson.Get (Some parent) "parent")) "/rooms/".

(** A session with a token and a user identifier. *)
Definition validSession (c : Collector) : Prop :=
  accessToken c ≠ EmptyString ∧ userId c ≠ EmptyString.

(** The requests a computation added to the record of the world. *)
Definition newRequests (w w' : World) : list http.Request :=
  drop (List.length (sent w)) (sent w').

(** From [w] to [w'] the requests [reqs] were sent, one round trip
    each, and the clock was read some number of times. *)
Definition grows (w w' : World) (reqs : list http.Request) : Prop :=
  sent w' = (sent w ++ reqs)%list
  ∧ trips w' = trips w + List.length reqs
  ∧ (ticks w ≤ ticks w')%nat.

(** Every structure of the map sits under its own identifier. *)
Definition keyed (S : gmap string Structure) : Prop :=
  ∀ id s, S !! id = Some s → Id s = id.

(** Among the members [kvs] of [weather_for_structures] there is one
    for structure [id] that has a [current.temp_c]. *)
Definition hasWeather (kvs : list (string * gjson.Value)) (id : string) : Prop :=
  ∃ kv, kv ∈ kvs ∧ kv.1 = "structure." ++ id
        ∧ gjson.Exists (gjson.Get (gjson.Get (Some kv.2) "current") "temp_c") = true.

(** The members of [weather_for_structures] that the last loop of
    [getReadings] visits. *)
Definition weatherOf (doc : gjson.Value) : list (string * gjson.Value) :=
  gjson.ForEach (gjson.Get (Some doc) "weather_for_structures").

(** The serial number of a [kryptonite.*] bucket that has a value. *)
Definition serialOf (b : gjson.Value) : option string :=
  if strings.HasPrefix (objectKey b) "kryptonite." then
    if gjson.Exists (bucketValue b)
    then Some (gjson.String (gjson.Get (bucketValue b) "serial_number"))
    else None
  else None.


End Vocabulary.

(** * The thermostat collector *)

Section NestCollector.

Import prometheus.

Lemma fold_visitDevice (kvs : list (string * gjson.Value)) (acc : list nest.Thermostat) :
  fold_left nest.visitDevice kvs acc
  = (acc ++ map nest.thermostatOf (List.filter nest.isThermostat (map snd kvs)))%list.
Proof.
  revert acc. induction kvs as [|[k d] kvs IH]; intros acc; simpl.
  - by rewrite app_nil_r.
  - rewrite IH. unfold nest.visitDevice. simpl.
    destruct (nest.isThermostat d); simpl; [|done].
    by rewrite <- app_assoc.
Qed.

Lemma parseDevices_filter (doc : gjson.Value) :
  nest.parseDevices doc
  = map nest.thermostatOf (List.filter nest.isThermostat (devicesOf doc)).
Proof. unfold nest.parseDevices. by rewrite fold_visitDevice. Qed.

Lemma getNestReadings_200 env c w doc :
  replies200 env c w doc →
  (nest.getNestReadings env c w).1
  = if (List.length (nest.parseDevices doc) =? 0)%nat
    then Err (Wrap nest.errFailedUnmarshalling "no valid thermostats in devices list")
    else Ok (nest.parseDevices doc).
Proof.
  intros [text H]. unfold nest.getNestReadings, clientDo. rewrite H. simpl.
  by destruct (List.length (nest.parseDevices doc) =? 0)%nat.
Qed.

Lemma collectLoop_app m (l1 l2 : list nest.Thermostat) :
  nest.collectLoop m (l1 ++ l2) = (nest.collectLoop m l1 ++ nest.collectLoop m l2)%list.
Proof.
  induction l1 as [|t l1 IH]; simpl; [done|].
  by rewrite IH, app_assoc.
Qed.

(** C5.  When the readings hold a thermostat that is not online, what
    [Collect] sends for that thermostat is its online gauge with value 0
    and nothing else: no ambient temperature, setpoint, humidity or heating
    metric stands between the metrics of the thermostats before it and those
    of the thermostats after it. *)
Theorem C5_offline_thermostat_only_online_gauge
    env c w w' (before after : list nest.Thermostat) (therm : nest.Thermostat) :
  nest.getNestReadings env c w = (Ok (before ++ therm :: after)%list, w') →
  nest.Online therm = false →
  nest.Collect env c w
  = (MustNewConstMetric (nest.up (nest.metrics c)) f64_one [] ::
     nest.collectLoop (nest.metrics c) before ++
     [MustNewConstMetric (nest.online (nest.metrics c)) f64_zero (nest.labelsOf therm)] ++
     nest.collectLoop (nest.metrics c) after, w')%list.
Proof.
  intros Hget Hoff. unfold nest.Collect. rewrite Hget.
  rewrite collectLoop_app. simpl.
  unfold nest.collectThermostat. rewrite Hoff. reflexivity.
Qed.

Lemma C5_offline_thermostat_witness :
  let env := sample.serving (sample.devicesDoc
               [sample.thermostatOnline; sample.thermostatOffline; sample.camera]) 0%Z in
  let c := sample.nestCollector in
  let offline := nest.thermostatOf sample.thermostatOffline in
  nest.Online offline = false ∧
  nest.Collect env c world0
  = (MustNewConstMetric (nest.up (nest.metrics c)) f64_one [] ::
     nest.collectLoop (nest.metrics c) [nest.thermostatOf sample.thermostatOnline] ++
     [MustNewConstMetric (nest.online (nest.metrics c)) f64_zero (nest.labelsOf offline)] ++
     nest.collectLoop (nest.metrics c) [],
     (nest.getNestReadings env c world0).2)%list.
Proof.
  split; [reflexivity|].
  apply (C5_offline_thermostat_only_online_gauge _ _ _ _
           [nest.thermostatOf sample.thermostatOnline] []
           (nest.thermostatOf sample.thermostatOffline)).
  - vm_compute. reflexivity.
  - vm_compute. reflexivity.
Defined.

(** C7.  When the reply is a 200 whose body can be read: a [devices]
    array without an element of thermostat type makes [getNestReadings]
    fail with the error of no valid thermostats; the thermostats read are
    those of the elements of thermostat type, in order, so an element of
    another type adds nothing; and such elements raise no error as soon as
    one element is a thermostat. *)
Theorem C7_no_thermostat_is_an_error env c w doc :
  replies200 env c w doc →
  (Forall (λ d, nest.isThermostat d = false) (devicesOf doc) →
     (nest.getNestReadings env c w).1
     = Err (Wrap nest.errFailedUnmarshalling "no valid thermostats in devices list"))
  ∧ nest.parseDevices doc
    = map nest.thermostatOf (List.filter nest.isThermostat (devicesOf doc))
  ∧ (Exists (λ d, nest.isThermostat d = true) (devicesOf doc) →
     (nest.getNestReadings env c w).1
     = Ok (map nest.thermostatOf (List.filter nest.isThermostat (devicesOf doc)))).
Proof.
  intros H200. rewrite (getNestReadings_200 _ _ _ _ H200), parseDevices_filter.
  split; [|split; [done|]].
  - intros Hnone.
    assert (List.filter nest.isThermostat (devicesOf doc) = []) as ->; [|done].
    induction Hnone as [|d ds Hd _ IH]; simpl; [done|]. by rewrite Hd.
  - intros Hsome.
    destruct (List.filter nest.isThermostat (devicesOf doc)) as [|t ts] eqn:E; [|done].
    exfalso. apply Exists_exists in Hsome as (d & Hin & Hd).
    assert (d ∈ List.filter nest.isThermostat (devicesOf doc)) as Hd'.
    { apply list_elem_of_In, filter_In. split; [by apply list_elem_of_In|done]. }
    rewrite E in Hd'. by apply elem_of_nil in Hd'.
Qed.

Lemma C7_no_thermostat_witness :
  (nest.getNestReadings (sample.serving (sample.devicesDoc [sample.camera]) 0%Z)
     sample.nestCollector world0).1
  = Err (Wrap nest.errFailedUnmarshalling "no valid thermostats in devices list").
Proof.
  refine (proj1 (C7_no_thermostat_is_an_error
            (sample.serving (sample.devicesDoc [sample.camera]) 0%Z)
            sample.nestCollector world0 (sample.devicesDoc [sample.camera]) _) _).
  - exists "...". reflexivity.
  - repeat constructor.
Defined.

(** C6.  A device of thermostat type without the [heatCelsius] member
    of the setpoint trait does not make [getNestReadings] fail: it returns
    the thermostats of the devices before it, this one, and those of the
    devices after it; the setpoint of this one is NaN, which is not zero,
    and [Collect] sends no setpoint metric for it. *)
Theorem C6_absent_heat_setpoint_is_no_value
    env c w doc (before after : list gjson.Value) (d : gjson.Value) :
  replies200 env c w doc →
  devicesOf doc = (before ++ d :: after)%list →
  nest.isThermostat d = true →
  gjson.GetPath (Some d) nest.pathHeatCelsius = None →
  (nest.getNestReadings env c w).1
  = Ok (map nest.thermostatOf (List.filter nest.isThermostat before) ++
        nest.thermostatOf d ::
        map nest.thermostatOf (List.filter nest.isThermostat after))%list
  ∧ nest.SetpointTemp (nest.thermostatOf d) = math.NaN
  ∧ nest.SetpointTemp (nest.thermostatOf d) ≠ f64_zero
  ∧ Forall (λ x, desc x ≠ nest.setpointTemp nest.buildMetrics)
      (nest.collectThermostat nest.buildMetrics (nest.thermostatOf d)).
Proof.
  intros H200 Hdevs Htype Habsent.
  assert (nest.SetpointTemp (nest.thermostatOf d) = math.NaN) as Hnan.
  { unfold nest.thermostatOf. cbn [nest.SetpointTemp]. by rewrite Habsent. }
  split; [|split; [done|split]].
  - rewrite (getNestReadings_200 _ _ _ _ H200), parseDevices_filter, Hdevs.
    rewrite List.filter_app. simpl. rewrite Htype, map_app. simpl.
    by destruct (map nest.thermostatOf (List.filter nest.isThermostat before)).
  - by rewrite Hnan.
  - revert Hnan. generalize (nest.thermostatOf d). intros therm Hnan.
    unfold nest.collectThermostat. rewrite Hnan.
    destruct (nest.Online therm); cbn [negb math.IsNaN math.NaN app];
      repeat (constructor; [cbn [desc]; vm_compute; discriminate|]); constructor.
Qed.

Lemma C6_absent_heat_setpoint_witness :
  let doc := sample.devicesDoc [sample.camera; sample.thermostatOnline; sample.thermostatOffline] in
  (nest.getNestReadings (sample.serving doc 0%Z) sample.nestCollector world0).1
  = Ok [nest.thermostatOf sample.thermostatOnline; nest.thermostatOf sample.thermostatOffline]
  ∧ nest.SetpointTemp (nest.thermostatOf sample.thermostatOnline) = math.NaN.
Proof.
  intros doc.
  destruct (C6_absent_heat_setpoint_is_no_value (sample.serving doc 0%Z)
              sample.nestCollector world0 doc
              [sample.camera] [sample.thermostatOffline] sample.thermostatOnline)
    as (Hok & Hnan & _).
  - exists "...". reflexivity.
  - reflexivity.
  - reflexivity.
  - reflexivity.
  - split; [exact Hok | exact Hnan].
Defined.

(** C8.  What [Collect] sends for an online thermostat whose HVAC status
    is COOLING: the online gauge, the ambient temperature, the humidity and
    the heating gauge with value 0.  No metric tells that it is cooling, and
    [Describe] has no descriptor for one. *)
Theorem C8_cooling_thermostat_metrics :
  let m := nest.buildMetrics in
  let therm := nest.thermostatOf sample.thermostatOnline in
  let labels := ["enterprises/p/devices/d1"; "Lounge"; "Living-Room"] in
  nest.Status therm = "COOLING"
  ∧ nest.collectThermostat m therm
    = [MustNewConstMetric (nest.online m) f64_one labels;
       MustNewConstMetric (nest.ambientTemp m) sample.f21_5 labels;
       MustNewConstMetric (nest.humidity m) sample.f48 labels;
       MustNewConstMetric (nest.heating m) f64_zero labels]
  ∧ map fqName (nest.Describe sample.nestCollector)
    = ["nest_up"; "nest_online"; "nest_ambient_temperature_celsius";
       "nest_setpoint_temperature_celsius"; "nest_humidity_percent"; "nest_heating"].
Proof. repeat split. Qed.

(** C4.  Whatever the space-to-dash policy of the exporter configuration
    (unset, off or on), the collector that [registerNestCollector] builds
    sends the label [Living Room] as [Living-Room]. *)
Theorem C4_label_dashed_whatever_the_policy (policy : option bool) :
  let env := sample.serving (sample.devicesDoc [sample.thermostatOnline]) 0%Z in
  let m := nest.buildMetrics in
  let labels := ["enterprises/p/devices/d1"; "Lounge"; "Living-Room"] in
  nest.Label (nest.thermostatOf sample.thermostatOnline) = "Living Room"
  ∧ match pkg.registerNestCollector env (sample.exporterConfig policy) with
    | Ok c => (nest.Collect env c world0).1
    | _ => []
    end
    = [MustNewConstMetric (nest.up m) f64_one [];
       MustNewConstMetric (nest.online m) f64_one labels;
       MustNewConstMetric (nest.ambientTemp m) sample.f21_5 labels;
       MustNewConstMetric (nest.humidity m) sample.f48 labels;
       MustNewConstMetric (nest.heating m) f64_zero labels].
Proof. destruct policy as [[]|]; split; reflexivity. Qed.

End NestCollector.

(** * The Nest app collector: the session *)

Section NestAppSession.

Import nestapp.

Lemma getGoogleAccessToken_no_panic env c w :
  (getGoogleAccessToken env c w).1 ≠ Panic.
Proof.
  unfold getGoogleAccessToken, clientDo.
  repeat (case_match; simpl; try discriminate); simplify_eq; discriminate.
Qed.

Lemma getNestJwt_no_panic env c tok w :
  (getNestJwt env c tok w).1 ≠ Panic.
Proof.
  unfold getNestJwt, clientDo, timeNow.
  repeat (case_match; simpl; try discriminate); simplify_eq; discriminate.
Qed.

(** The requests [getGoogleAccessToken] sends: none when the URL is
    refused, else the one GET. *)
Lemma getGoogleAccessToken_sent env c w :
  sent (getGoogleAccessToken env c w).2
  = (sent w ++ match NewRequest env (AuthURL (config c)) with
               | None => [googleTokenRequest c]
               | Some _ => []
               end)%list.
Proof.
  unfold getGoogleAccessToken, clientDo.
  repeat (case_match; simpl; try done); simplify_eq; simpl; by rewrite ?app_nil_r.
Qed.

Lemma getNestJwt_sent env c tok w :
  ∃ reqs, sent (getNestJwt env c tok w).2 = (sent w ++ reqs)%list
          ∧ (reqs = [] ∨ reqs = [jwtRequest tok]).
Proof.
  unfold getNestJwt, clientDo, timeNow.
  destruct (NewRequest env issueJwtURL); simpl.
  { exists []. by rewrite app_nil_r; auto. }
  exists [jwtRequest tok]. split; [|by right].
  repeat (case_match; simpl; try done); simplify_eq; simpl; done.
Qed.

Lemma reauth_no_panic env c w : (reauth env c w).1.1 ≠ Panic.
Proof.
  unfold reauth.
  pose proof (getGoogleAccessToken_no_panic env c w) as H1.
  destruct (getGoogleAccessToken env c w) as [[tok| |] w1]; simpl in *; try done.
  pose proof (getNestJwt_no_panic env c tok w1) as H2.
  destruct (getNestJwt env c tok w1) as [[[[jwt uid] exp]| |] w2]; simpl in *; done.
Qed.

(** A [reauth] that does not end with the nil error leaves the collector
    as it was. *)
Lemma reauth_failed_unchanged env c w r c' w' :
  reauth env c w = (r, c', w') → r ≠ Ok tt → c' = c.
Proof.
  unfold reauth. intros H Hr.
  destruct (getGoogleAccessToken env c w) as [[tok| |] w1]; [|by simplify_eq..].
  destruct (getNestJwt env c tok w1) as [[[[jwt uid] exp]| |] w2]; by simplify_eq.
Qed.

(** What [reauth] sends: requests of the token exchange only, the GET
    of the Google token first when its URL is accepted. *)
Lemma reauth_sent env c w :
  ∃ auth, sent (reauth env c w).2 = (sent w ++ auth)%list
          ∧ Forall (isAuthRequest c) auth
          ∧ (NewRequest env (AuthURL (config c)) = None →
             ∃ rest, auth = googleTokenRequest c :: rest).
Proof.
  set (first := match NewRequest env (AuthURL (config c)) with
                | None => [googleTokenRequest c]
                | Some _ => []
                end).
  assert (Forall (isAuthRequest c) first) as Hfirst.
  { subst first. destruct (NewRequest env (AuthURL (config c))).
    - apply Forall_nil_2.
    - apply Forall_cons_2; [by left|apply Forall_nil_2]. }
  assert (∃ reqs, sent (reauth env c w).2 = (sent w ++ first ++ reqs)%list
                  ∧ Forall (isAuthRequest c) reqs) as (reqs & Hsent & Hreqs).
  { unfold reauth.
    pose proof (getGoogleAccessToken_sent env c w) as H1. fold first in H1.
    destruct (getGoogleAccessToken env c w) as [[tok| |] w1]; simpl in H1.
    - destruct (getNestJwt_sent env c tok w1) as (reqs & H2 & Hreqs).
      exists reqs. split.
      + destruct (getNestJwt env c tok w1) as [[[[jwt uid] exp]| |] w2]; simpl in *;
          by rewrite H2, H1, <- app_assoc.
      + destruct Hreqs as [->| ->]; [apply Forall_nil_2|].
        apply Forall_cons_2; [right; by eexists|apply Forall_nil_2].
    - exists []. simpl. rewrite app_nil_r. split; [done|apply Forall_nil_2].
    - exists []. simpl. rewrite app_nil_r. split; [done|apply Forall_nil_2]. }
  exists (first ++ reqs)%list. split; [done|]. split.
  - by apply Forall_app.
  - intros Hurl. subst first. rewrite Hurl. simpl. by eexists.
Qed.

(** C9.  [reauth] either fails and leaves the collector, and with it the
    token, the user identifier and the expiry instant, exactly as it was, or
    succeeds and sets all three from the one answer of [getNestJwt].
    [getReadings] changes the collector in no other way: the collector it
    leaves is the one it started with, or the one a successful [reauth]
    produced from it. *)
Theorem C9_session_replaced_only_as_a_whole env c w :
  match reauth env c w with
  | (Ok _, c', w') =>
      ∃ tok w1 jwt uid exp,
        getGoogleAccessToken env c w = (Ok tok, w1)
        ∧ getNestJwt env c tok w1 = (Ok (jwt, uid, exp), w')
        ∧ c' = {| config := config c; accessToken := jwt; accessTokenValidUntil := exp;
                  userId := uid; metrics := metrics c |}
  | (_, c', _) => c' = c
  end
  ∧ (let c' := (getReadings env c w).1.2 in
     c' = c ∨ ∃ w1 w2, reauth env c w1 = (Ok tt, c', w2)).
Proof.
  split.
  - unfold reauth.
    destruct (getGoogleAccessToken env c w) as [[tok| |] w1]; [|done..].
    destruct (getNestJwt env c tok w1) as [[[[jwt uid] exp]| |] w2] eqn:E; [|done..].
    by exists tok, w1, jwt, uid, exp.
  - unfold getReadings. destruct (timeNow env w) as [now w1].
    destruct (aboutToExpire now (accessTokenValidUntil c)).
    + destruct (reauth env c w1) as [[r c1] w2] eqn:E.
      destruct r as [[]| e |].
      * destruct (requestReadings env c1 w2). simpl. right. by exists w1, w2.
      * assert (c1 = c) as -> by (eapply reauth_failed_unchanged; [exact E|done]).
        destruct (timeNow env w2) as [now2 w3].
        destruct (negb (time.Before now2 (accessTokenValidUntil c))); simpl; [by left|].
        destruct (requestReadings env c w3). by left.
      * assert (c1 = c) as -> by (eapply reauth_failed_unchanged; [exact E|done]).
        by left.
    + destruct (requestReadings env c w1). by left.
Qed.

Lemma requestReadings_sent env c w :
  ∃ data, sent (requestReadings env c w).2 = (sent w ++ data)%list
          ∧ (data = [] ∨ data = [appLaunchRequest c]).
Proof.
  unfold requestReadings, clientDo.
  destruct (NewRequest env (appLaunchURL c)); simpl.
  { exists []. by rewrite app_nil_r; auto. }
  exists [appLaunchRequest c]. split; [|by right].
  repeat (case_match; simpl; try done); simplify_eq; simpl; done.
Qed.

Lemma aboutToExpire_spec (now validUntil : Instant) :
  aboutToExpire now validUntil = true ↔ (validUntil - 2 * time.Minute ≤ now)%Z.
Proof.
  unfold aboutToExpire, time.Before, time.Add.
  destruct (Z.ltb_spec now (validUntil + -2 * time.Minute)); simpl; split; intros; try done; lia.
Qed.

Lemma getReadings_sent_expiring env c w :
  aboutToExpire (Now env (ticks w)) (accessTokenValidUntil c) = true →
  ∃ auth data,
    sent (getReadings env c w).2 = (sent w ++ auth ++ data)%list
    ∧ sent (reauth env c (timeNow env w).2).2 = (sent w ++ auth)%list
    ∧ Forall (isAuthRequest c) auth
    ∧ (data = [] ∨ data = [appLaunchRequest (getReadings env c w).1.2])
    ∧ (NewRequest env (AuthURL (config c)) = None →
       ∃ rest, auth = googleTokenRequest c :: rest).
Proof.
  intros Hexp. unfold getReadings, timeNow. rewrite Hexp. cbn [snd].
  set (w1 := mkWorld _ _ _).
  destruct (reauth_sent env c w1) as (auth & Hauth & Hall & Hfirst).
  exists auth.
  destruct (reauth env c w1) as [[r c1] w2]; simpl in Hauth.
  destruct r as [[]| e |].
  - destruct (requestReadings_sent env c1 w2) as (data & Hdata & Hcases).
    exists data. destruct (requestReadings env c1 w2); simpl in *.
    rewrite Hdata, Hauth, <- app_assoc. repeat split; auto.
  - destruct (negb (time.Before (Now env (ticks w2)) (accessTokenValidUntil c1))); simpl.
    + exists []. rewrite app_nil_r. repeat split; auto.
    + set (w3 := mkWorld _ _ _).
      destruct (requestReadings_sent env c1 w3) as (data & Hdata & Hcases).
      exists data. destruct (requestReadings env c1 w3); simpl in *.
      rewrite Hdata. simpl. rewrite Hauth, <- app_assoc. repeat split; auto.
  - exists []. simpl. rewrite app_nil_r. repeat split; auto.
Qed.

Lemma getReadings_not_expiring env c w :
  aboutToExpire (Now env (ticks w)) (accessTokenValidUntil c) = false →
  getReadings env c w
  = (let '(r, w') := requestReadings env c (timeNow env w).2 in (r, c, w')).
Proof. intros Hexp. unfold getReadings, timeNow. by rewrite Hexp. Qed.

(** C2.  For a collector whose authentication URL makes a request (as
    it did when the collector was built): a call of [getReadings] opens with
    the first request of the token exchange exactly when the clock it reads
    is at or past the stored expiry minus two minutes.  In that case all
    that [reauth] sends comes before the data request, which is then the
    last request if it is sent at all; otherwise the collector is left as it
    is and nothing but the data request is sent.  With the expiry one minute
    ahead the token exchange comes first; with the expiry ten minutes ahead
    there is none. *)
Theorem C2_reauth_exactly_when_about_to_expire env c w :
  NewRequest env (AuthURL (config c)) = None →
  let now := Now env (ticks w) in
  let validUntil := accessTokenValidUntil c in
  let out := getReadings env c w in
  (reauthFirst env c w ↔ (validUntil - 2 * time.Minute ≤ now)%Z)
  ∧ ((validUntil - 2 * time.Minute ≤ now)%Z →
     ∃ auth data,
       sent out.2 = (sent w ++ auth ++ data)%list
       ∧ sent (reauth env c (timeNow env w).2).2 = (sent w ++ auth)%list
       ∧ Forall (isAuthRequest c) auth
       ∧ (data = [] ∨ data = [appLaunchRequest out.1.2]))
  ∧ ((now < validUntil - 2 * time.Minute)%Z →
     out.1.2 = c
     ∧ ∃ data, sent out.2 = (sent w ++ data)%list
               ∧ (data = [] ∨ data = [appLaunchRequest c]))
  ∧ (validUntil = (now + 1 * time.Minute)%Z → reauthFirst env c w)
  ∧ (validUntil = (now + 10 * time.Minute)%Z → ¬ reauthFirst env c w).
Proof.
  intros Hurl now validUntil out.
  assert ((validUntil - 2 * time.Minute ≤ now)%Z → reauthFirst env c w) as Hyes.
  { intros Hexp%aboutToExpire_spec.
    destruct (getReadings_sent_expiring env c w Hexp) as (auth & data & Hsent & _ & _ & _ & Hfirst).
    destruct (Hfirst Hurl) as [rest ->].
    exists (rest ++ data)%list. by rewrite Hsent. }
  assert ((now < validUntil - 2 * time.Minute)%Z →
          out.1.2 = c ∧ ∃ data, sent out.2 = (sent w ++ data)%list
                                ∧ (data = [] ∨ data = [appLaunchRequest c])) as Hno.
  { intros Hlt.
    assert (aboutToExpire now validUntil = false) as Hexp.
    { destruct (aboutToExpire now validUntil) eqn:E; [|done].
      apply aboutToExpire_spec in E. lia. }
    subst out. rewrite (getReadings_not_expiring env c w Hexp).
    destruct (requestReadings_sent env c (timeNow env w).2) as (data & Hdata & Hcases).
    destruct (requestReadings env c (timeNow env w).2); simpl in *. eauto. }
  assert (reauthFirst env c w → (validUntil - 2 * time.Minute ≤ now)%Z) as Honly.
  { intros [rest Hrest].
    destruct (Z.le_gt_cases (validUntil - 2 * time.Minute) now) as [|Hlt]; [done|].
    destruct (Hno Hlt) as (_ & data & Hdata & Hcases). exfalso.
    subst out. rewrite Hdata in Hrest. apply app_inv_head in Hrest.
    destruct Hcases as [->| ->]; discriminate. }
  split; [by split|]. split; [|split; [done|split]].
  - intros Hexp%aboutToExpire_spec.
    destruct (getReadings_sent_expiring env c w Hexp) as (auth & data & ? & ? & ? & ? & _).
    by exists auth, data.
  - intros ->. apply Hyes. unfold time.Minute, time.Second. lia.
  - intros -> Hre%Honly. unfold time.Minute, time.Second in Hre. lia.
Qed.

End NestAppSession.

(** * The Nest app collector: the readings *)

Section NestAppReadings.

Import nestapp.

#[local] Arguments gjson.Get : simpl never.
#[local] Arguments gjson.String : simpl never.
#[local] Arguments gjson.Exists : simpl never.
#[local] Arguments gjson.ForEach : simpl never.
#[local] Arguments strings.HasPrefix : simpl never.
#[local] Arguments strings.TrimPrefix : simpl never.

(** ** The first loop *)

Lemma visitStructure_fresh st kv : fresh st → fresh (visitStructure st kv).
Proof.
  intros [Hloc Hinj]. unfold visitStructure.
  destruct (strings.HasPrefix _ _); [|done].
  destruct (gjson.Exists _); [|done].
  destruct st as [S store]. simpl in *.
  set (id := strings.TrimPrefix _ _). set (s := mkStructure _ _ _ _).
  split; simpl.
  - intros id' s' [[-> <-]|[Hne Hs']]%lookup_insert_Some.
    + exists (List.length store). split; [done|].
      by rewrite lookup_app_r, Nat.sub_diag.
    + destruct (Hloc _ _ Hs') as (l & Hl & Hempty).
      exists l. split; [done|]. by apply lookup_app_l_Some.
  - intros id1 id2 s1 s2 l
      [[-> <-]|[Hne1 Hs1]]%lookup_insert_Some [[-> <-]|[Hne2 Hs2]]%lookup_insert_Some H1 H2;
      [done| | |by eapply Hinj].
    + simpl in H1. destruct (Hloc _ _ Hs2) as (l2 & Hl2 & Hempty%lookup_lt_Some).
      simplify_eq. lia.
    + simpl in H2. destruct (Hloc _ _ Hs1) as (l1 & Hl1 & Hempty%lookup_lt_Some).
      simplify_eq. lia.
Qed.

Lemma visitStructure_names st kv :
  Name <$> (visitStructure st kv).1
  = match structureEntry kv.2 with
    | Some e => put (Name <$> st.1) e
    | None => Name <$> st.1
    end.
Proof.
  unfold visitStructure, structureEntry, objectKey, bucketValue.
  destruct (strings.HasPrefix _ _); [|done].
  destruct (gjson.Exists _); [|done].
  unfold put. simpl. by rewrite fmap_insert.
Qed.

Lemma firstLoop kvs st :
  fresh st →
  fresh (fold_left visitStructure kvs st)
  ∧ Name <$> (fold_left visitStructure kvs st).1
    = fold_left put (omap structureEntry (map snd kvs)) (Name <$> st.1).
Proof.
  revert st. induction kvs as [|kv kvs IH]; intros st Hst; simpl; [done|].
  destruct (IH _ (visitStructure_fresh st kv Hst)) as [Hfresh Hnames].
  split; [done|]. rewrite Hnames, visitStructure_names.
  by destruct (structureEntry kv.2).
Qed.

(** ** The second loop *)

Lemma innerLoop s l es (store : Store) :
  WhereNames s = Some l →
  fold_left (visitWhereEntry s) es (Some store)
  = Some (alter (λ m, fold_left put (omap whereEntry (map snd es)) m) l store).
Proof.
  intros Hl. revert store. induction es as [|kv es IH]; intros store; simpl.
  - by rewrite list_alter_id.
  - unfold whereEntry.
    destruct (gjson.Exists (gjson.Get (Some kv.2) "where_id")); [|by rewrite IH].
    rewrite Hl. simpl. by rewrite IH, list_alter_alter_eq.
Qed.

Lemma secondLoop S kvs (store : Store) :
  (∀ id s, S !! id = Some s → is_Some (WhereNames s)) →
  ∃ store' : Store,
    fold_left (visitWhere S) kvs (Some store) = Some store'
    ∧ ∀ l, store' !! l
           = (λ m, fold_left put (entriesAt S l (map snd kvs)) m) <$> store !! l.
Proof.
  intros Hmaps. revert store. induction kvs as [|kv kvs IH]; intros store; simpl.
  { exists store. split; [done|]. intros l. by destruct (store !! l). }
  unfold visitWhere at 2, whereBucket, objectKey, bucketValue.
  destruct (strings.HasPrefix _ _); [|by apply IH].
  destruct (gjson.Exists _); [|by apply IH].
  destruct (S !! _) as [s|] eqn:Hs; [|by apply IH].
  destruct (Hmaps _ _ Hs) as [l0 Hl0].
  rewrite (innerLoop s l0 _ _ Hl0).
  destruct (IH (alter (λ m, fold_left put
                 (omap whereEntry (map snd (gjson.ForEach
                    (gjson.Get (gjson.Get (Some kv.2) "value") "wheres")))) m) l0 store))
    as (store' & Hfold & Hlook).
  exists store'. split; [done|]. intros l. rewrite Hlook, list_lookup_alter.
  rewrite Hl0. destruct (decide (l0 = l)) as [->|Hne].
  - rewrite decide_True by done.
    destruct (store !! l); simpl; [|done]. by rewrite fold_left_app.
  - rewrite decide_False by congruence. done.
Qed.

Lemma entriesAt_entriesFor S (store : Store) id s l bs :
  fresh (S, store) → S !! id = Some s → WhereNames s = Some l →
  entriesAt S l bs = entriesFor id bs.
Proof.
  intros [_ Hinj] Hs Hl. unfold entriesAt, entriesFor.
  induction bs as [|b bs IH]; simpl; [done|]. rewrite IH. f_equal.
  destruct (whereBucket b) as [[id' es]|]; [|done].
  destruct (decide (id' = id)) as [->|Hne].
  - rewrite Hs. by rewrite decide_True.
  - destruct (S !! id') as [s'|] eqn:Hs'; [|done].
    destruct (decide (WhereNames s' = Some l)) as [Hl'|]; [|done].
    destruct Hne. by eapply (Hinj id' id s' s l).
Qed.

(** ** The third loop *)

Lemma thirdLoop S (store : Store) kvs acc :
  fold_left (visitSensor S store) kvs acc
  = (acc ++ omap (sensorOf S store) (map snd kvs))%list.
Proof.
  revert acc. induction kvs as [|kv kvs IH]; intros acc; simpl.
  - by rewrite app_nil_r.
  - rewrite IH. unfold visitSensor, sensorOf, objectKey, bucketValue.
    destruct (strings.HasPrefix _ _); [|done].
    destruct (gjson.Exists _); [|done].
    by rewrite <- app_assoc.
Qed.

(** ** The three loops together *)

Lemma sensorOf_resolve S (store store' : Store) bs b :
  fresh (S, store) →
  Name <$> S = structureNames bs →
  (∀ l, store' !! l = (λ m, fold_left put (entriesAt S l bs) m) <$> store !! l) →
  sensorOf S store' b = resolve bs b.
Proof.
  intros Hfresh Hnames Hstore. unfold sensorOf, resolve.
  destruct (strings.HasPrefix _ _); [|done].
  destruct (gjson.Exists _); [|done].
  cbv zeta. set (sid := gjson.String (gjson.Get (bucketValue b) "structure_id")).
  set (wid := gjson.String (gjson.Get (bucketValue b) "where_id")).
  assert (structureNames bs !! sid = Name <$> S !! sid) as ->.
  { by rewrite <- Hnames, lookup_fmap. }
  unfold lookupOrZero.
  destruct (S !! sid) as [s|] eqn:Hs; simpl; [|done].
  destruct (proj1 Hfresh _ _ Hs) as (l & Hl & Hempty). simpl in Hempty.
  rewrite Hl. unfold mapRead. rewrite Hstore, Hempty. simpl.
  by rewrite (entriesAt_entriesFor S store sid s l bs Hfresh Hs Hl).
Qed.

Lemma omap_ext_all {A B} (f g : A → option B) (l : list A) :
  (∀ x, f x = g x) → omap f l = omap g l.
Proof.
  intros Hfg. induction l as [|x l IH]; [done|].
  csimpl. by rewrite Hfg, IH.
Qed.

(** [parseReadings] never panics, and the sensors it returns are those
    of the description without the store, bucket by bucket. *)
Lemma parseReadings_resolve doc :
  ∃ r, parseReadings doc = Some r
       ∧ sensors r = omap (resolve (bucketsOf doc)) (bucketsOf doc).
Proof.
  unfold parseReadings, bucketsOf.
  set (kvs := gjson.ForEach (gjson.Get (Some doc) "updated_buckets")).
  assert (fresh (∅, [])) as Hfresh0.
  { split; simpl; intros *; by rewrite lookup_empty. }
  destruct (firstLoop kvs (∅, []) Hfresh0) as [Hfresh Hnames].
  destruct (fold_left visitStructure kvs (∅, [])) as [S store].
  simpl in Hnames. rewrite fmap_empty in Hnames.
  destruct (secondLoop S kvs store) as (store' & Hfold & Hstore).
  { intros id s Hs. destruct (proj1 Hfresh _ _ Hs) as (l & -> & _). by eexists. }
  rewrite Hfold. simpl. eexists. split; [reflexivity|]. simpl.
  rewrite thirdLoop. simpl. apply omap_ext_all. intros b.
  by apply (sensorOf_resolve S store store').
Qed.

(** ** Keys and names *)

Lemma prefix_drop (p s : string) :
  String.prefix p s = true → s = p ++ strings.drop (String.length p) s.
Proof.
  revert s. induction p as [|a p IH]; intros s; simpl; [done|].
  destruct s as [|b s]; [done|]. simpl.
  destruct (ascii_dec a b) as [->|]; [|done].
  intros Hp. change (String b s = String b (p ++ strings.drop (String.length p) s)).
  f_equal. by apply IH.
Qed.

Lemma HasPrefix_TrimPrefix (s p : string) :
  strings.HasPrefix s p = true → s = p ++ strings.TrimPrefix s p.
Proof.
  unfold strings.TrimPrefix, strings.HasPrefix. intros Hp. rewrite Hp.
  by apply prefix_drop.
Qed.

Lemma HasPrefix_app (p x : string) : strings.HasPrefix (p ++ x) p = true.
Proof.
  unfold strings.HasPrefix. induction p as [|a p IH]; simpl.
  - by destruct x.
  - by destruct (ascii_dec a a).
Qed.

Lemma TrimPrefix_app (p x : string) : strings.TrimPrefix (p ++ x) p = x.
Proof.
  unfold strings.TrimPrefix. rewrite HasPrefix_app.
  induction p as [|a p IH]; simpl; done.
Qed.

Lemma put_fold_lookup_None (l : list (string * string)) m k :
  k ∉ l.*1 → fold_left put l m !! k = m !! k.
Proof.
  revert m. induction l as [|[k' v'] l IH]; intros m Hk; simpl; [done|].
  apply not_elem_of_cons in Hk as [Hne Hk].
  rewrite IH by done. unfold put. simpl in *. by rewrite lookup_insert_ne.
Qed.

Lemma put_fold_lookup_NoDup (l : list (string * string)) m k v :
  NoDup l.*1 → (k, v) ∈ l → fold_left put l m !! k = Some v.
Proof.
  revert m. induction l as [|[k' v'] l IH]; intros m Hnd Hin; simpl.
  - by apply elem_of_nil in Hin.
  - apply NoDup_cons in Hnd as [Hk' Hnd].
    apply elem_of_cons in Hin as [[= <- <-]|Hin].
    + rewrite put_fold_lookup_None by done. unfold put. simpl. by rewrite lookup_insert_eq.
    + by apply IH.
Qed.

Lemma put_fold_perm (l l' : list (string * string)) m :
  NoDup l.*1 → l ≡ₚ l' → fold_left put l m = fold_left put l' m.
Proof.
  intros Hnd Hperm. apply map_eq. intros k.
  assert (NoDup l'.*1) as Hnd' by (by rewrite <- Hperm).
  destruct (decide (k ∈ l.*1)) as [Hk|Hk].
  - apply list_elem_of_fmap in Hk as ([k' v] & -> & Hin). simpl.
    rewrite (put_fold_lookup_NoDup l m k' v) by done.
    rewrite (put_fold_lookup_NoDup l' m k' v); [done..|by rewrite <- Hperm].
  - rewrite put_fold_lookup_None by done.
    rewrite put_fold_lookup_None; [done|by rewrite <- Hperm].
Qed.

Lemma structureEntry_key b id name :
  structureEntry b = Some (id, name) ↔
  objectKey b = "structure." ++ id ∧ gjson.Exists (bucketValue b) = true
  ∧ name = gjson.String (gjson.Get (bucketValue b) "name").
Proof.
  unfold structureEntry. split.
  - destruct (strings.HasPrefix _ _) eqn:Hp; [|done].
    destruct (gjson.Exists _); [|done]. intros [= <- <-].
    by apply HasPrefix_TrimPrefix in Hp.
  - intros (Hkey & -> & ->).
    by rewrite Hkey, HasPrefix_app, TrimPrefix_app.
Qed.

Lemma whereBucket_key w sid wid name :
  isWhereBucket w sid wid name →
  ∃ es, whereBucket w = Some (sid, es) ∧ (wid, name) ∈ es.
Proof.
  intros (Hkey & Hv & e & He & Hid & -> & ->). unfold whereBucket.
  rewrite Hkey, HasPrefix_app, TrimPrefix_app, Hv.
  eexists. split; [reflexivity|].
  apply list_elem_of_omap. exists e. split; [done|].
  unfold whereEntry. by rewrite Hid.
Qed.

Lemma entriesFor_elem bs w sid wid name :
  w ∈ bs → isWhereBucket w sid wid name → (wid, name) ∈ entriesFor sid bs.
Proof.
  intros Hw (es & Hes & Hin)%whereBucket_key.
  apply list_elem_of_In, in_flat_map. exists w.
  split; [by apply list_elem_of_In|].
  rewrite Hes, decide_True by done. by apply list_elem_of_In.
Qed.

Lemma structureNames_None bs sid :
  (∀ b, b ∈ bs → objectKey b ≠ "structure." ++ sid) →
  structureNames bs !! sid = None.
Proof.
  intros Hno. unfold structureNames.
  rewrite put_fold_lookup_None; [by rewrite lookup_empty|].
  intros ([id name] & -> & (b & Hb & Hentry)%list_elem_of_omap)%list_elem_of_fmap.
  apply structureEntry_key in Hentry as (Hkey & _). by eapply Hno.
Qed.

(** The names a sensor bucket resolves to when the keys are distinct. *)
Lemma resolve_names bs k s w sid wid name wname :
  distinctKeys bs →
  k ∈ bs → s ∈ bs → w ∈ bs →
  isSensorBucket k sid wid →
  isStructureBucket s sid name →
  isWhereBucket w sid wid wname →
  ∃ x, resolve bs k = Some x ∧ StructureName x = name ∧ WhereName x = wname.
Proof.
  intros [Hs Hw] Hk Hsin Hwin (Hpre & Hval & -> & ->) Hsb Hwb.
  unfold resolve. rewrite Hpre, Hval. cbv zeta.
  eexists. split; [reflexivity|]. simpl.
  assert (structureNames bs !! gjson.String (gjson.Get (bucketValue k) "structure_id")
          = Some name) as ->.
  { apply put_fold_lookup_NoDup; [done|].
    apply list_elem_of_omap. exists s. split; [done|]. by apply structureEntry_key. }
  split; [done|].
  unfold whereNames. erewrite put_fold_lookup_NoDup; [done|apply Hw|].
  by eapply entriesFor_elem.
Qed.

(** With distinct keys the description does not depend on the order of
    the buckets. *)
Lemma resolve_perm bs bs' b :
  distinctKeys bs → bs ≡ₚ bs' → resolve bs' b = resolve bs b.
Proof.
  intros [Hs Hw] Hperm.
  assert (structureNames bs' = structureNames bs) as Hnames.
  { unfold structureNames. symmetry. apply put_fold_perm; [done|]. by rewrite Hperm. }
  assert (∀ id, whereNames id bs' = whereNames id bs) as Hwheres.
  { intros id. unfold whereNames. symmetry. apply put_fold_perm; [done|].
    unfold entriesFor. by apply Permutation_flat_map. }
  unfold resolve. by rewrite Hnames, Hwheres.
Qed.

(** ** The claims on the readings *)

(** C10.  A [kryptonite.*] bucket with a value, whose structure
    identifier is the key of no [structure.*] bucket of the response, does
    not stop [parseReadings] and is not dropped: the sensors returned are
    those of the buckets before it, then one for this bucket with the empty
    string as structure name and as where name, then those of the buckets
    after it. *)
Theorem C10_sensor_of_unknown_structure_kept
    doc (before after : list gjson.Value) (k : gjson.Value) sid wid :
  bucketsOf doc = (before ++ k :: after)%list →
  isSensorBucket k sid wid →
  (∀ b, b ∈ bucketsOf doc → objectKey b ≠ "structure." ++ sid) →
  ∃ r, parseReadings doc = Some r
       ∧ sensors r
         = (omap (resolve (bucketsOf doc)) before ++
            {| SerialNumber := gjson.String (gjson.Get (bucketValue k) "serial_number");
               StructureName := EmptyString;
               WhereName := EmptyString;
               LastUpdatedAt := time.Unix (gjson.Int (gjson.Get (bucketValue k) "last_updated_at"));
               Temperature := gjson.Float (gjson.Get (bucketValue k) "current_temperature");
               BatteryLevel := gjson.Int (gjson.Get (bucketValue k) "battery_level") |} ::
            omap (resolve (bucketsOf doc)) after)%list.
Proof.
  intros Hbs (Hpre & Hval & -> & ->) Hno.
  destruct (parseReadings_resolve doc) as (r & Hr & Hsensors).
  exists r. split; [done|]. rewrite Hsensors.
  rewrite Hbs at 2. rewrite omap_app. f_equal. csimpl.
  unfold resolve at 1. rewrite Hpre, Hval. cbv zeta.
  by rewrite (structureNames_None _ _ Hno).
Qed.

Lemma C10_sensor_of_unknown_structure_witness :
  ∃ r, parseReadings (sample.bucketsDoc sample.orphan) = Some r
       ∧ map (λ x, (SerialNumber x, StructureName x, WhereName x)) (sensors r)
         = [("S9", EmptyString, EmptyString)].
Proof.
  destruct (C10_sensor_of_unknown_structure_kept (sample.bucketsDoc sample.orphan)
              [sample.structureBucket "A" "Home"]
              [sample.whereBucket "B" [("w1", "Cellar")]]
              (sample.sensorBucket "S9" "B" "w1") "B" "w1") as (r & Hr & Hs).
  - reflexivity.
  - repeat split.
  - intros b Hb. vm_compute in Hb.
    repeat (apply elem_of_cons in Hb as [->|Hb]; [vm_compute; discriminate|]).
    by apply elem_of_nil in Hb.
  - exists r. split; [exact Hr|]. rewrite Hs. reflexivity.
Defined.

(** C3, as stated, fails: the two bucket lists below are permutations
    of each other, each with structure, where and sensor buckets, and the
    one sensor is named after a different structure bucket in each; so the
    names of the sensors are not the same under every permutation of the
    buckets. *)
Lemma C3_order_matters_with_duplicate_keys :
  sample.homeThenOffice ≡ₚ sample.officeThenHome
  ∧ bucketsOf (sample.bucketsDoc sample.homeThenOffice) = sample.homeThenOffice
  ∧ bucketsOf (sample.bucketsDoc sample.officeThenHome) = sample.officeThenHome
  ∧ sensorNames (sample.bucketsDoc sample.homeThenOffice) = [("S1", "Office", "Kitchen")]
  ∧ sensorNames (sample.bucketsDoc sample.officeThenHome) = [("S1", "Home", "Kitchen")]
  ∧ ¬ (∀ doc doc', bucketsOf doc ≡ₚ bucketsOf doc' → sensorNames doc ≡ₚ sensorNames doc').
Proof.
  assert (sample.homeThenOffice ≡ₚ sample.officeThenHome) as Hperm by apply perm_swap.
  split; [exact Hperm|]. do 4 (split; [reflexivity|]).
  intros Hinv.
  specialize (Hinv (sample.bucketsDoc sample.homeThenOffice)
                   (sample.bucketsDoc sample.officeThenHome) Hperm).
  change (sensorNames (sample.bucketsDoc sample.homeThenOffice))
    with [("S1", "Office", "Kitchen")] in Hinv.
  change (sensorNames (sample.bucketsDoc sample.officeThenHome))
    with [("S1", "Home", "Kitchen")] in Hinv.
  apply Permutation_length_1 in Hinv. discriminate.
Qed.

(** C3, amended.  When no two [structure.*] buckets of the response
    have the same key and, among the [where.*] buckets of one structure, no
    where identifier is named twice: [parseReadings] succeeds on the response
    and on every response whose buckets are a permutation of its buckets; in
    both, the sensor read from a bucket is the same; so the sensors of the
    one are a permutation of the sensors of the other; and the sensor of a
    [kryptonite.*] bucket bears the name given by the structure bucket it
    refers to and the where name given for its where identifier in the where
    bucket of that structure. *)
Theorem C3_names_do_not_depend_on_bucket_order doc doc' :
  distinctKeys (bucketsOf doc) →
  bucketsOf doc ≡ₚ bucketsOf doc' →
  ∃ r r',
    parseReadings doc = Some r
    ∧ parseReadings doc' = Some r'
    ∧ sensors r = omap (resolve (bucketsOf doc)) (bucketsOf doc)
    ∧ sensors r' = omap (resolve (bucketsOf doc)) (bucketsOf doc')
    ∧ sensors r ≡ₚ sensors r'
    ∧ ∀ k s w sid wid name wname,
        k ∈ bucketsOf doc → s ∈ bucketsOf doc → w ∈ bucketsOf doc →
        isSensorBucket k sid wid →
        isStructureBucket s sid name →
        isWhereBucket w sid wid wname →
        ∃ x, resolve (bucketsOf doc) k = Some x
             ∧ StructureName x = name ∧ WhereName x = wname.
Proof.
  intros Hkeys Hperm.
  destruct (parseReadings_resolve doc) as (r & Hr & Hs).
  destruct (parseReadings_resolve doc') as (r' & Hr' & Hs').
  assert (sensors r' = omap (resolve (bucketsOf doc)) (bucketsOf doc')) as Hs''.
  { rewrite Hs'. apply omap_ext_all. intros b. by apply resolve_perm. }
  exists r, r'. repeat (split; [done|]). split.
  - rewrite Hs, Hs''. by apply omap_Permutation.
  - intros *. by apply resolve_names.
Qed.

Lemma C3_names_do_not_depend_on_bucket_order_witness :
  distinctKeys sample.house
  ∧ sample.house ≡ₚ sample.houseReordered
  ∧ sensorNames (sample.bucketsDoc sample.house)
    = [("S1", "Home", "Kitchen"); ("S2", "Home", "Attic")]
  ∧ sensorNames (sample.bucketsDoc sample.houseReordered)
    = [("S2", "Home", "Attic"); ("S1", "Home", "Kitchen")]
  ∧ ∃ r r', parseReadings (sample.bucketsDoc sample.house) = Some r
            ∧ parseReadings (sample.bucketsDoc sample.houseReordered) = Some r'
            ∧ sensors r ≡ₚ sensors r'.
Proof.
  assert (distinctKeys sample.house) as Hkeys.
  { split.
    - vm_compute. apply NoDup_cons. split; [apply not_elem_of_nil|apply NoDup_nil_2].
    - intros id. unfold entriesFor, sample.house. cbn [flat_map].
      repeat match goal with
             | |- context [whereBucket ?b] =>
                 let v := eval vm_compute in (whereBucket b) in
                 change (whereBucket b) with v
             end.
      cbv beta iota. cbn [app]. case_decide; cbn [app fmap list_fmap fst];
        [|apply NoDup_nil_2].
      repeat (apply NoDup_cons; split;
              [intros Hin; repeat (apply elem_of_cons in Hin as [Hin|Hin]; [discriminate|]);
               by apply elem_of_nil in Hin|]).
      apply NoDup_nil_2. }
  assert (sample.house ≡ₚ sample.houseReordered) as Hperm.
  { unfold sample.house, sample.houseReordered.
    apply (Permutation_cons_app [_; _; _] []). simpl.
    apply (Permutation_cons_app [_] [_]). simpl. apply perm_swap. }
  split; [exact Hkeys|]. split; [exact Hperm|]. split; [reflexivity|]. split; [reflexivity|].
  destruct (C3_names_do_not_depend_on_bucket_order
              (sample.bucketsDoc sample.house) (sample.bucketsDoc sample.houseReordered)
              Hkeys Hperm) as (r & r' & Hr & Hr' & _ & _ & Hp & _).
  by exists r, r'.
Defined.

End NestAppReadings.

(** * The Nest app collector: expiry and the grace period *)

Section NestAppGrace.

Import nestapp.

(** C1.  [getReadings] is called when the clock is at or past the
    stored expiry minus two minutes, and the [reauth] it runs fails with
    [err].  If the clock read after that failure is still before the stored
    expiry, and the data request built from the old session gets a 200 whose
    body can be read, [getReadings] returns the readings of that body, leaves
    the session as it was, and the last request it sent is that data request.
    If the clock read after the failure is at or past the stored expiry,
    [getReadings] returns the re-authentication error wrapping [err] and has
    sent nothing after what [reauth] sent. *)
Theorem C1_reauth_failure_grace_period env c w err c1 w2 :
  (accessTokenValidUntil c - 2 * time.Minute ≤ Now env (ticks w))%Z →
  reauth env c (timeNow env w).2 = (Err err, c1, w2) →
  ((Now env (ticks w2) < accessTokenValidUntil c)%Z →
   ∀ text doc,
     NewRequest env (appLaunchURL c) = None →
     Do env (trips w2) (appLaunchRequest c)
     = http.Replied (http.mkResponse 200 (http.ReadOk text doc)) →
     ∃ readings w',
       getReadings env c w = (Ok readings, c, w')
       ∧ parseReadings doc = Some readings
       ∧ sent w' = (sent w2 ++ [appLaunchRequest c])%list)
  ∧ ((accessTokenValidUntil c ≤ Now env (ticks w2))%Z →
     ∃ w',
       getReadings env c w
       = (Err (Errorf "Failed to re-authenticate to Nest API" err), c, w')
       ∧ sent w' = sent w2 ∧ trips w' = trips w2).
Proof.
  intros Hexp%aboutToExpire_spec Hre.
  assert (c1 = c) as -> by (eapply reauth_failed_unchanged; [exact Hre|done]).
  unfold timeNow in Hre. cbn [snd] in Hre.
  unfold getReadings, timeNow. cbv beta iota. rewrite Hexp, Hre.
  cbv beta iota. cbn [ticks]. unfold time.Before. split.
  - intros Hlt text doc Hurl Hdo.
    destruct (Z.ltb_spec (Now env (ticks w2)) (accessTokenValidUntil c)); [|lia].
    cbn [negb]. unfold requestReadings, clientDo. rewrite Hurl. cbn [trips].
    rewrite Hdo. cbn [http.StatusCode http.ResBody]. simpl (negb _).
    destruct (parseReadings_resolve doc) as (r & Hr & _). rewrite Hr.
    by exists r, (mkWorld (S (ticks w2)) (S (trips w2)) (sent w2 ++ [appLaunchRequest c])).
  - intros Hge.
    destruct (Z.ltb_spec (Now env (ticks w2)) (accessTokenValidUntil c)); [lia|].
    cbn [negb]. eexists. split; [reflexivity|]. split; reflexivity.
Qed.

Lemma C1_reauth_failure_grace_period_witness :
  (∃ readings w',
     getReadings (sample.authDown sample.noon)
       (sample.appCollector (sample.noon + 1 * time.Minute)%Z) world0
     = (Ok readings, sample.appCollector (sample.noon + 1 * time.Minute)%Z, w')
     ∧ map SerialNumber (sensors readings) = ["S1"; "S2"])
  ∧ (∃ err w',
       getReadings (sample.authDown sample.noon)
         (sample.appCollector (sample.noon - 1 * time.Minute)%Z) world0
       = (Err (Errorf "Failed to re-authenticate to Nest API" err),
          sample.appCollector (sample.noon - 1 * time.Minute)%Z, w')
       ∧ sent w' = [googleTokenRequest (sample.appCollector (sample.noon - 1 * time.Minute)%Z)]).
Proof.
  split.
  - destruct (C1_reauth_failure_grace_period (sample.authDown sample.noon)
                (sample.appCollector (sample.noon + 1 * time.Minute)%Z) world0
                sample.authDownError
                (sample.appCollector (sample.noon + 1 * time.Minute)%Z)
                (mkWorld 1 1 [googleTokenRequest
                                (sample.appCollector (sample.noon + 1 * time.Minute)%Z)]))
      as [Hgrace _].
    + vm_compute. discriminate.
    + reflexivity.
    + destruct (Hgrace eq_refl "..." (sample.bucketsDoc sample.house) eq_refl eq_refl)
        as (readings & w' & Hget & Hparse & _).
      exists readings, w'. split; [exact Hget|].
      vm_compute in Hparse. injection Hparse as <-. reflexivity.
  - destruct (C1_reauth_failure_grace_period (sample.authDown sample.noon)
                (sample.appCollector (sample.noon - 1 * time.Minute)%Z) world0
                sample.authDownError
                (sample.appCollector (sample.noon - 1 * time.Minute)%Z)
                (mkWorld 1 1 [googleTokenRequest
                                (sample.appCollector (sample.noon - 1 * time.Minute)%Z)]))
      as [_ Hexpired].
    + vm_compute. discriminate.
    + reflexivity.
    + destruct Hexpired as (w' & Hget & Hsent & _); [vm_compute; discriminate|].
      eexists _, w'. split; [exact Hget|exact Hsent].
Defined.

Lemma C2_reauth_exactly_when_about_to_expire_witness :
  reauthFirst (sample.authDown sample.noon)
    (sample.appCollector (sample.noon + 1 * time.Minute)%Z) world0
  ∧ ¬ reauthFirst (sample.authDown sample.noon)
        (sample.appCollector (sample.noon + 10 * time.Minute)%Z) world0.
Proof.
  split.
  - apply (C2_reauth_exactly_when_about_to_expire (sample.authDown sample.noon)
             (sample.appCollector (sample.noon + 1 * time.Minute)%Z) world0 eq_refl).
    reflexivity.
  - apply (C2_reauth_exactly_when_about_to_expire (sample.authDown sample.noon)
             (sample.appCollector (sample.noon + 10 * time.Minute)%Z) world0 eq_refl).
    reflexivity.
Defined.

End NestAppGrace.

(** * More on the thermostat collector *)

Section NestCollectorMore.

Import prometheus.

Lemma TrimRightByte_snoc (s : string) (c : ascii) :
  strings.TrimRightByte (s ++ String c EmptyString) c = strings.TrimRightByte s c.
Proof.
  induction s as [|a s IH]; simpl.
  - by rewrite Ascii.eqb_refl.
  - by rewrite IH.
Qed.

(** X1.  [New] drops a trailing slash of the API URL before it appends
    the path of the devices: a URL and the same URL with one more slash at
    its end, both accepted by [url.ParseRequestURI], give the same collector,
    whose URL is the trimmed URL followed by [/enterprises/], the project
    identifier and [/devices/]. *)
Theorem nest_New_ignores_trailing_slash
    env (apiURL : string) timeout id secret refresh project token policy :
  ParseRequestURI env apiURL = None →
  ParseRequestURI env (apiURL ++ "/") = None →
  nest.New env (nest.mkConfig timeout (apiURL ++ "/") id secret refresh project token policy)
  = nest.New env (nest.mkConfig timeout apiURL id secret refresh project token policy)
  ∧ nest.New env (nest.mkConfig timeout apiURL id secret refresh project token policy)
    = Ok {| nest.url := strings.TrimRightByte apiURL "/"
                        ++ "/enterprises/" ++ project ++ "/devices/";
            nest.metrics := nest.buildMetrics |}.
Proof.
  intros H1 H2. unfold nest.New. cbn [nest.APIURL nest.ProjectID].
  rewrite H1, H2. by rewrite (TrimRightByte_snoc apiURL "/").
Qed.

Lemma nest_New_ignores_trailing_slash_witness :
  nest.New (sample.serving gjson.Null 0%Z)
    (pkg.nestConfig (sample.exporterConfig None))
  = Ok sample.nestCollector.
Proof.
  exact (proj1 (nest_New_ignores_trailing_slash (sample.serving gjson.Null 0%Z)
                  "https://smartdevicemanagement.googleapis.com/v1"
                  5000 "id" "secret" "refresh" "p" None false eq_refl eq_refl)).
Defined.

Lemma filter_nil_Forall (ds : list gjson.Value) :
  List.filter nest.isThermostat ds = [] ↔ Forall (λ d, nest.isThermostat d = false) ds.
Proof.
  induction ds as [|d ds IH]; simpl.
  - split; [intros _; apply Forall_nil_2|done].
  - destruct (nest.isThermostat d) eqn:E.
    + split; [done|]. intros [? _]%Forall_cons. congruence.
    + rewrite IH. split; [by apply Forall_cons_2|by intros [_ ?]%Forall_cons].
Qed.

(** X2.  A call of [Collect] sends exactly one request, the GET of the
    collector's URL.  When the reply is a 200 whose body can be read and holds
    a device of thermostat type, [Collect] sends the up gauge with value 1 and
    then the metrics of the thermostats, of which there is at least one; in
    every other case (the request fails, another status, a body that cannot
    be read, no thermostat) it sends the up gauge with value 0 and nothing
    else. *)
Theorem nest_Collect_up_tells_health env c w :
  sent (nest.Collect env c w).2
  = (sent w ++ [http.mkRequest "GET" (nest.url c) [] EmptyString])%list
  ∧ trips (nest.Collect env c w).2 = S (trips w)
  ∧ (healthy env c w →
     ∃ t ts, (nest.Collect env c w).1
             = MustNewConstMetric (nest.up (nest.metrics c)) f64_one [] ::
               nest.collectLoop (nest.metrics c) (t :: ts))
  ∧ (¬ healthy env c w →
     (nest.Collect env c w).1
     = [MustNewConstMetric (nest.up (nest.metrics c)) f64_zero []]).
Proof.
  unfold healthy, replies200, nest.Collect, nest.getNestReadings, clientDo.
  destruct (Do env (trips w) _) as [msg|[code body]] eqn:Hdo; simpl.
  { do 2 (split; [done|]). split; [|done]. by intros (doc & [text [=]] & _). }
  destruct (Z.eqb_spec code 200) as [->|Hcode]; simpl.
  2: { do 2 (split; [done|]). split; [|done].
       intros (doc & [text [=]] & _). congruence. }
  destruct body as [msg|text doc]; simpl.
  { do 2 (split; [done|]). split; [|done]. by intros (doc & [text [=]] & _). }
  rewrite parseDevices_filter.
  destruct (List.filter nest.isThermostat (devicesOf doc)) as [|d ds] eqn:Hf; simpl.
  - do 2 (split; [done|]). split; [|done].
    intros (doc' & [text' [= <- <-]] & Hex).
    apply filter_nil_Forall in Hf. apply Exists_exists in Hex as (d & Hd & Ht).
    rewrite Forall_forall in Hf. specialize (Hf d Hd). congruence.
  - do 2 (split; [done|]). split.
    + intros _. exists (nest.thermostatOf d), (map nest.thermostatOf ds). reflexivity.
    + intros Hno. destruct Hno. exists doc. split; [by exists text|].
      apply Exists_exists. exists d.
      assert (In d (List.filter nest.isThermostat (devicesOf doc))) as Hin
        by (rewrite Hf; by left).
      apply filter_In in Hin as [Hin Ht]. split; [by apply list_elem_of_In|done].
Qed.

Lemma collectLoop_Forall (P : Metric → Prop) m (ts : list nest.Thermostat) :
  (∀ t, Forall P (nest.collectThermostat m t)) → Forall P (nest.collectLoop m ts).
Proof.
  intros Hone. induction ts as [|t ts IH]; cbn [nest.collectLoop]; [apply Forall_nil_2|].
  apply Forall_app. by split.
Qed.

Lemma Collect_Forall (P : Metric → Prop) env c w :
  (∀ v, P (MustNewConstMetric (nest.up (nest.metrics c)) v [])) →
  (∀ t, Forall P (nest.collectThermostat (nest.metrics c) t)) →
  Forall P (nest.Collect env c w).1.
Proof.
  intros Hup Hone. unfold nest.Collect.
  destruct (nest.getNestReadings env c w) as [[ts|e|] w']; simpl.
  - apply Forall_cons_2; [done|]. by apply collectLoop_Forall.
  - by apply Forall_cons_2; [|apply Forall_nil_2].
  - by apply Forall_cons_2; [|apply Forall_nil_2].
Qed.

(** X3.  Every metric that [Collect] sends, for a collector that [New]
    built, has as many label values as its descriptor has variable labels:
    none for the up gauge, three (id, room, label) for the others.  So no
    call of [MustNewConstMetric] in [Collect] can panic on the labels. *)
Theorem nest_Collect_labels_fit_descriptors env cfg c env' w :
  nest.New env cfg = Ok c →
  Forall wellLabelled (nest.Collect env' c w).1.
Proof.
  unfold nest.New. destruct (ParseRequestURI env (nest.APIURL cfg)); [done|].
  intros [= <-]. apply Collect_Forall; [done|]. intros t.
  unfold nest.collectThermostat, wellLabelled.
  destruct (nest.Online t); simpl; [|by repeat constructor].
  destruct (math.IsNaN (nest.SetpointTemp t)); simpl; by repeat constructor.
Qed.

Lemma nest_Collect_labels_fit_descriptors_witness :
  Forall wellLabelled
    (nest.Collect (sample.serving (sample.devicesDoc
        [sample.thermostatOnline; sample.thermostatOffline]) 0%Z)
       sample.nestCollector world0).1.
Proof.
  exact (nest_Collect_labels_fit_descriptors (sample.serving gjson.Null 0%Z)
           (pkg.nestConfig (sample.exporterConfig None)) sample.nestCollector
           (sample.serving (sample.devicesDoc
              [sample.thermostatOnline; sample.thermostatOffline]) 0%Z)
           world0 eq_refl).
Defined.

(** X4.  [Collect] sends no metric whose descriptor [Describe] has not
    announced, whatever the collector and the reply. *)
Theorem nest_Collect_sends_described_metrics env c w :
  Forall (λ m, desc m ∈ nest.Describe c) (nest.Collect env c w).1.
Proof.
  apply Collect_Forall.
  - intros v. simpl. unfold nest.Describe. set_solver.
  - intros t. unfold nest.collectThermostat, nest.Describe.
    destruct (nest.Online t); simpl; [|repeat constructor; set_solver].
    destruct (math.IsNaN (nest.SetpointTemp t)); simpl;
      repeat constructor; simpl; set_solver.
Qed.

(** X5.  The room of a thermostat is the display name of the first of
    its parent relations whose parent contains [/rooms/], later ones being
    ignored; it is the empty string when no parent relation names a room. *)
Theorem nest_roomOf_is_first_room (parents : list gjson.Value) :
  (Forall (λ q, isRoom q = false) parents → nest.roomOf parents = EmptyString)
  ∧ (∀ before p after,
       parents = (before ++ p :: after)%list →
       Forall (λ q, isRoom q = false) before →
       isRoom p = true →
       nest.roomOf parents = gjson.String (gjson.Get (Some p) "displayName")).
Proof.
  split.
  - induction 1 as [|q qs Hq _ IH]; cbn [nest.roomOf]; [done|].
    unfold isRoom in Hq. by rewrite Hq.
  - intros before p after -> Hbefore Hp.
    induction Hbefore as [|q qs Hq _ IH]; cbn [app nest.roomOf].
    + unfold isRoom in Hp. by rewrite Hp.
    + unfold isRoom in Hq. by rewrite Hq.
Qed.

Lemma ReplaceByte_get (s : string) (old new : ascii) (i : nat) :
  old ≠ new → String.get i (strings.ReplaceByte s old new) ≠ Some old.
Proof.
  intros Hne. revert i. induction s as [|c s IH]; intros i; simpl; [done|].
  destruct i as [|i]; [|by apply IH].
  destruct (Ascii.eqb_spec c old); congruence.
Qed.

Lemma ReplaceByte_length (s : string) (old new : ascii) :
  String.length (strings.ReplaceByte s old new) = String.length s.
Proof. induction s as [|c s IH]; simpl; [done|]. by rewrite IH. Qed.

Lemma ReplaceByte_absent (s : string) (old new : ascii) :
  (∀ i, String.get i s ≠ Some old) → strings.ReplaceByte s old new = s.
Proof.
  induction s as [|c s IH]; intros Habs; simpl; [done|].
  destruct (Ascii.eqb_spec c old) as [->|_].
  - by destruct (Habs 0).
  - f_equal. apply IH. intros i. apply (Habs (S i)).
Qed.

(** X6.  The label values [Collect] builds for a thermostat are its
    identifier and its room as they are, and its label with every space
    turned into a dash: the third value holds no space, has the length of the
    label, and is the label itself when the label holds no space. *)
Theorem nest_labelsOf_dashes_every_space (therm : nest.Thermostat) :
  ∃ label,
    nest.labelsOf therm = [nest.ID therm; nest.Room therm; label]
    ∧ (∀ i, String.get i label ≠ Some nest.space)
    ∧ String.length label = String.length (nest.Label therm)
    ∧ ((∀ i, String.get i (nest.Label therm) ≠ Some nest.space) →
       label = nest.Label therm).
Proof.
  eexists. split; [reflexivity|]. split; [|split].
  - intros i. by apply ReplaceByte_get.
  - apply ReplaceByte_length.
  - apply ReplaceByte_absent.
Qed.

End NestCollectorMore.

(** * More on the session of the Nest app collector *)

Section NestAppSessionMore.

Import nestapp.

Lemma getGoogleAccessToken_Ok env c w tok w' :
  getGoogleAccessToken env c w = (Ok tok, w') →
  tok ≠ EmptyString
  ∧ NewRequest env (AuthURL (config c)) = None
  ∧ w' = mkWorld (ticks w) (S (trips w)) (sent w ++ [googleTokenRequest c])
  ∧ ∃ code text doc,
      Do env (trips w) (googleTokenRequest c)
      = http.Replied (http.mkResponse code (http.ReadOk text doc))
      ∧ gjson.Get (Some doc) "error" = None
      ∧ tok = gjson.String (gjson.Get (Some doc) "access_token").
Proof.
  unfold getGoogleAccessToken, clientDo.
  destruct (NewRequest env (AuthURL (config c))); [done|].
  destruct (Do env (trips w) (googleTokenRequest c)) as [msg|[code body]]; [done|].
  destruct body as [msg|text doc]; cbn [http.ResBody]; [done|].
  destruct (gjson.Get (Some doc) "error") eqn:Herr; cbn [gjson.Exists]; [done|].
  destruct (String.eqb_spec (gjson.String (gjson.Get (Some doc) "access_token")) EmptyString)
    as [|Hne]; [done|].
  intros [= <- <-]. repeat split; [done|]. by exists code, text, doc.
Qed.

Lemma getNestJwt_Ok env c tok w jwt uid validUntil w' :
  getNestJwt env c tok w = (Ok (jwt, uid, validUntil), w') →
  jwt ≠ EmptyString ∧ uid ≠ EmptyString
  ∧ w' = mkWorld (ticks w) (S (trips w)) (sent w ++ [jwtRequest tok])
  ∧ ∃ code text doc,
      Do env (trips w) (jwtRequest tok)
      = http.Replied (http.mkResponse code (http.ReadOk text doc))
      ∧ gjson.Get (Some doc) "error" = None
      ∧ jwt = gjson.String (gjson.Get (Some doc) "jwt")
      ∧ uid = gjson.String (gjson.GetPath (Some doc) ["claims"; "subject"; "nestId"; "id"])
      ∧ ParseRFC3339 env
          (gjson.String (gjson.GetPath (Some doc) ["claims"; "expirationTime"]))
        = Some validUntil.
Proof.
  unfold getNestJwt, clientDo, timeNow.
  destruct (NewRequest env issueJwtURL); [done|].
  destruct (Do env (trips w) (jwtRequest tok)) as [msg|[code body]]; [done|].
  destruct body as [msg|text doc]; cbn [http.ResBody]; [done|].
  destruct (gjson.Get (Some doc) "error") eqn:Herr; cbn [gjson.Exists]; [done|].
  destruct (String.eqb_spec (gjson.String (gjson.Get (Some doc) "jwt")) EmptyString)
    as [|Hjwt]; [done|].
  destruct (String.eqb_spec
              (gjson.String (gjson.GetPath (Some doc) ["claims"; "subject"; "nestId"; "id"]))
              EmptyString) as [|Huid]; [done|].
  destruct (String.eqb_spec
              (gjson.String (gjson.GetPath (Some doc) ["claims"; "expirationTime"]))
              EmptyString) as [|Hexp]; [done|].
  destruct (ParseRFC3339 env _) as [t|] eqn:Hparse; [|done].
  intros [= <- <- <- <-]. repeat split; [done..|].
  exists code, text, doc. by rewrite Herr.
Qed.

Lemma reauth_Ok_parts env c w c' w' :
  reauth env c w = (Ok tt, c', w') →
  ∃ tok jwt uid t w1,
    getGoogleAccessToken env c w = (Ok tok, w1)
    ∧ getNestJwt env c tok w1 = (Ok (jwt, uid, t), w')
    ∧ c' = {| config := config c; accessToken := jwt; accessTokenValidUntil := t;
              userId := uid; metrics := metrics c |}.
Proof.
  unfold reauth.
  destruct (getGoogleAccessToken env c w) as [[tok| |] w1] eqn:E1; [|done..].
  destruct (getNestJwt env c tok w1) as [[[[jwt uid] t]| |] w2] eqn:E2; [|done..].
  intros [= <- <-]. by exists tok, jwt, uid, t, w1.
Qed.

Lemma reauth_Ok_keeps env c w c' w' :
  reauth env c w = (Ok tt, c', w') →
  config c' = config c ∧ metrics c' = metrics c ∧ validSession c'.
Proof.
  intros (tok & jwt & uid & t & w1 & _ & E2 & ->)%reauth_Ok_parts.
  apply getNestJwt_Ok in E2 as (Hjwt & Huid & _). by split_and!.
Qed.

(** X7.  When [reauth] succeeds it has sent exactly two requests, the
    GET of the Google token and then the POST of the JWT, which carries the
    token read from the answer to the first; it has not read the clock; and
    the new session is read from the answer to the second: a token and a
    user identifier that are not empty, and the expiry that the
    [claims.expirationTime] of that answer parses to.  Neither answer has an
    [error] member; the status codes of the answers are not looked at. *)
Theorem reauth_success_session env c w c' w' :
  reauth env c w = (Ok tt, c', w') →
  ∃ tok code1 text1 doc1 code2 text2 doc2,
    Do env (trips w) (googleTokenRequest c)
    = http.Replied (http.mkResponse code1 (http.ReadOk text1 doc1))
    ∧ gjson.Get (Some doc1) "error" = None
    ∧ tok = gjson.String (gjson.Get (Some doc1) "access_token")
    ∧ tok ≠ EmptyString
    ∧ Do env (S (trips w)) (jwtRequest tok)
      = http.Replied (http.mkResponse code2 (http.ReadOk text2 doc2))
    ∧ gjson.Get (Some doc2) "error" = None
    ∧ w' = mkWorld (ticks w) (S (S (trips w)))
             (sent w ++ [googleTokenRequest c; jwtRequest tok])
    ∧ config c' = config c ∧ metrics c' = metrics c
    ∧ accessToken c' = gjson.String (gjson.Get (Some doc2) "jwt")
    ∧ userId c'
      = gjson.String (gjson.GetPath (Some doc2) ["claims"; "subject"; "nestId"; "id"])
    ∧ ParseRFC3339 env
        (gjson.String (gjson.GetPath (Some doc2) ["claims"; "expirationTime"]))
      = Some (accessTokenValidUntil c')
    ∧ validSession c'.
Proof.
  intros (tok & jwt & uid & t & w1 & E1 & E2 & ->)%reauth_Ok_parts.
  apply getGoogleAccessToken_Ok in E1
    as (Htok & _ & -> & code1 & text1 & doc1 & Hdo1 & Herr1 & ->).
  apply getNestJwt_Ok in E2
    as (Hjwt & Huid & -> & code2 & text2 & doc2 & Hdo2 & Herr2 & -> & -> & Hparse).
  simpl in Hdo2.
  exists (gjson.String (gjson.Get (Some doc1) "access_token")),
    code1, text1, doc1, code2, text2, doc2.
  split_and!; try done.
  simpl. by rewrite <- app_assoc.
Qed.

Lemma reauth_success_session_witness :
  ∃ c' w',
    reauth (sample.authUp sample.noon sample.acceptsAll)
      (sample.appCollector sample.noon) world0 = (Ok tt, c', w')
    ∧ accessToken c' = "new-jwt" ∧ userId c' = "user2"
    ∧ accessTokenValidUntil c' = (sample.noon + 3600 * time.Second)%Z
    ∧ validSession c'.
Proof.
  eexists _, _. split; [reflexivity|].
  destruct (reauth_success_session (sample.authUp sample.noon sample.acceptsAll)
              (sample.appCollector sample.noon) world0 _ _ eq_refl)
    as (_ & _ & _ & _ & _ & _ & _ & _ & _ & _ & _ & _ & _ & _ & _ & _ & _ & _ & _ & Hvalid).
  repeat split; apply Hvalid.
Defined.

(** X8.  A collector that [New] returns has the configuration it was
    given and the metrics of [buildMetrics]; its authentication URL is one
    that [http.NewRequest] accepts; its session has a token and a user
    identifier; and building it sent the two requests of the token exchange
    and nothing else. *)
Theorem nestapp_New_collector env cfg w c w' :
  New env cfg w = (Ok c, w') →
  config c = cfg ∧ metrics c = buildMetrics
  ∧ NewRequest env (AuthURL cfg) = None
  ∧ validSession c
  ∧ ∃ tok, sent w'
           = (sent w ++ [http.mkRequest "GET" (AuthURL cfg)
                           [("Cookie", AuthCookies cfg);
                            ("X-Requested-With", "XmlHttpRequest")] EmptyString;
                         jwtRequest tok])%list.
Proof.
  unfold New.
  set (c0 := mkCollector cfg EmptyString time.zero EmptyString buildMetrics).
  destruct (reauth env c0 w) as [[r c1] w1] eqn:E.
  destruct r as [[]| |]; [|done..]. intros [= <- <-].
  destruct (reauth_Ok_keeps _ _ _ _ _ E) as (Hcfg & Hm & Hvalid).
  apply reauth_Ok_parts in E as (tok & jwt & uid & t & w0 & E1 & E2 & _).
  apply getGoogleAccessToken_Ok in E1 as (_ & Hurl & -> & _).
  apply getNestJwt_Ok in E2 as (_ & _ & -> & _).
  split_and!; try done. exists tok. simpl. by rewrite <- app_assoc.
Qed.

Lemma nestapp_New_collector_witness :
  ∃ c w',
    New (sample.authUp sample.noon sample.acceptsAll) sample.appConfig world0 = (Ok c, w')
    ∧ config c = sample.appConfig ∧ validSession c.
Proof.
  eexists _, _. split; [reflexivity|].
  destruct (nestapp_New_collector (sample.authUp sample.noon sample.acceptsAll)
              sample.appConfig world0 _ _ eq_refl) as (Hcfg & _ & _ & Hvalid & _).
  split; [exact Hcfg|exact Hvalid].
Defined.

(** The collector [getReadings] leaves is the one it was given or one
    a successful [reauth] made of it. *)
Lemma getReadings_collector env c w :
  (getReadings env c w).1.2 = c
  ∨ ∃ w1 w2, reauth env c w1 = (Ok tt, (getReadings env c w).1.2, w2).
Proof.
  unfold getReadings. destruct (timeNow env w) as [now w1].
  destruct (aboutToExpire now (accessTokenValidUntil c)).
  - destruct (reauth env c w1) as [[r c1] w2] eqn:E.
    destruct r as [[]| e |].
    + destruct (requestReadings env c1 w2). simpl. right. by exists w1, w2.
    + assert (c1 = c) as -> by (eapply reauth_failed_unchanged; [exact E|done]).
      destruct (timeNow env w2) as [now2 w3].
      destruct (negb (time.Before now2 (accessTokenValidUntil c))); simpl; [by left|].
      destruct (requestReadings env c w3). by left.
    + assert (c1 = c) as -> by (eapply reauth_failed_unchanged; [exact E|done]).
      by left.
  - destruct (requestReadings env c w1). by left.
Qed.

(** X9.  [getReadings] keeps the configuration and the metrics of the
    collector, and a session that has a token and a user identifier still
    has them afterwards, whether the call re-authenticates or not and
    whether it succeeds or fails.  With X8: every collector reached from
    [New] by calls of [getReadings] has such a session. *)
Theorem getReadings_keeps_session_valid env c w :
  config (getReadings env c w).1.2 = config c
  ∧ metrics (getReadings env c w).1.2 = metrics c
  ∧ (validSession c → validSession (getReadings env c w).1.2).
Proof.
  destruct (getReadings_collector env c w) as [->|(w1 & w2 & Hre)]; [done|].
  apply reauth_Ok_keeps in Hre as (? & ? & ?). done.
Qed.

Lemma grows_refl w : grows w w [].
Proof. unfold grows. rewrite app_nil_r. simpl. split_and!; [done|lia|lia]. Qed.

Lemma grows_trans w1 w2 w3 r1 r2 :
  grows w1 w2 r1 → grows w2 w3 r2 → grows w1 w3 (r1 ++ r2).
Proof.
  intros (H1 & H2 & H3) (H4 & H5 & H6). unfold grows.
  rewrite H4, H1, H5, H2, length_app, <- app_assoc. split_and!; [done|lia|lia].
Qed.

Lemma timeNow_grows env w : grows w (timeNow env w).2 [].
Proof. unfold grows, timeNow. simpl. rewrite app_nil_r. split_and!; [done|lia|lia]. Qed.

Lemma getGoogleAccessToken_grows env c w :
  ∃ reqs, grows w (getGoogleAccessToken env c w).2 reqs
          ∧ (reqs = [] ∨ reqs = [googleTokenRequest c]).
Proof.
  unfold getGoogleAccessToken, clientDo.
  destruct (NewRequest env (AuthURL (config c))); simpl.
  { exists []. split; [apply grows_refl|by left]. }
  exists [googleTokenRequest c]. split; [|by right].
  assert (grows w (mkWorld (ticks w) (S (trips w)) (sent w ++ [googleTokenRequest c]))
            [googleTokenRequest c]) as Hg.
  { unfold grows. simpl. split_and!; [done|lia|lia]. }
  repeat (case_match; simpl; try done); simplify_eq; done.
Qed.

Lemma getNestJwt_grows env c tok w :
  ∃ reqs, grows w (getNestJwt env c tok w).2 reqs
          ∧ (reqs = [] ∨ reqs = [jwtRequest tok]).
Proof.
  unfold getNestJwt, clientDo, timeNow.
  destruct (NewRequest env issueJwtURL); simpl.
  { exists []. split; [|by left]. unfold grows. simpl. rewrite app_nil_r.
    split_and!; [done|lia|lia]. }
  exists [jwtRequest tok]. split; [|by right].
  repeat (case_match; simpl; try done); simplify_eq;
    unfold grows; simpl; split_and!; (done || lia).
Qed.

Lemma reauth_grows env c w :
  ∃ auth, grows w (reauth env c w).2 auth
          ∧ Forall (isAuthRequest c) auth ∧ (List.length auth ≤ 2)%nat.
Proof.
  unfold reauth.
  destruct (getGoogleAccessToken_grows env c w) as (r1 & Hg1 & Hr1).
  assert (Forall (isAuthRequest c) r1 ∧ (List.length r1 ≤ 1)%nat) as [Hf1 Hl1].
  { destruct Hr1 as [->| ->]; simpl; split; try lia;
      [apply Forall_nil_2|apply Forall_cons_2; [by left|apply Forall_nil_2]]. }
  destruct (getGoogleAccessToken env c w) as [[tok| |] w1]; simpl in *.
  - destruct (getNestJwt_grows env c tok w1) as (r2 & Hg2 & Hr2).
    assert (Forall (isAuthRequest c) r2 ∧ (List.length r2 ≤ 1)%nat) as [Hf2 Hl2].
    { destruct Hr2 as [->| ->]; simpl; split; try lia;
        [apply Forall_nil_2|apply Forall_cons_2; [right; by eexists|apply Forall_nil_2]]. }
    exists (r1 ++ r2)%list.
    assert (grows w (getNestJwt env c tok w1).2 (r1 ++ r2)) as Hg
      by (by eapply grows_trans).
    rewrite length_app. split_and!; [|by apply Forall_app|lia].
    by destruct (getNestJwt env c tok w1) as [[[[jwt uid] t]| |] w2].
  - exists r1. split_and!; [done|done|lia].
  - exists r1. split_and!; [done|done|lia].
Qed.

Lemma requestReadings_grows env c w :
  ∃ data, grows w (requestReadings env c w).2 data
          ∧ (data = [] ∨ data = [appLaunchRequest c]).
Proof.
  unfold requestReadings, clientDo.
  destruct (NewRequest env (appLaunchURL c)); simpl.
  { exists []. split; [apply grows_refl|by left]. }
  exists [appLaunchRequest c]. split; [|by right].
  repeat (case_match; simpl; try done); simplify_eq;
    unfold grows; simpl; split_and!; (done || lia).
Qed.

(** X10.  One call of [getReadings] makes at most three round trips:
    at most two requests of the token exchange, then at most one data
    request, which is built from the session the call leaves.  Each request
    recorded is one round trip, and a call that finds the token more than
    two minutes from its expiry sends no request of the token exchange. *)
Theorem getReadings_sends_at_most_three_requests env c w :
  ∃ auth data,
    sent (getReadings env c w).2 = (sent w ++ auth ++ data)%list
    ∧ trips (getReadings env c w).2 = trips w + List.length auth + List.length data
    ∧ Forall (isAuthRequest c) auth
    ∧ (List.length auth ≤ 2)%nat
    ∧ (data = [] ∨ data = [appLaunchRequest (getReadings env c w).1.2])
    ∧ (aboutToExpire (Now env (ticks w)) (accessTokenValidUntil c) = false → auth = []).
Proof.
  unfold getReadings.
  pose proof (timeNow_grows env w) as Hg0. unfold timeNow in *. cbn [snd] in Hg0.
  set (w1 := mkWorld _ _ _) in *.
  destruct (aboutToExpire (Now env (ticks w)) (accessTokenValidUntil c)) eqn:Hexp.
  - destruct (reauth_grows env c w1) as (auth & Hg1 & Hf & Hl).
    exists auth.
    destruct (reauth env c w1) as [[r c1] w2]; cbn [snd] in Hg1.
    pose proof (grows_trans _ _ _ _ _ Hg0 Hg1) as Hg01. simpl in Hg01.
    destruct r as [[]| e |].
    + destruct (requestReadings_grows env c1 w2) as (data & Hg2 & Hd).
      exists data. destruct (requestReadings env c1 w2) as [r w3]; cbn [fst snd] in *.
      destruct (grows_trans _ _ _ _ _ Hg01 Hg2) as (Hs & Ht & _).
      rewrite length_app in Ht. split_and!; try done; lia.
    + set (w3 := mkWorld (S (ticks w2)) (trips w2) (sent w2)).
      assert (grows w w3 auth) as Hg3.
      { destruct Hg01 as (? & ? & ?). unfold grows. simpl. split_and!; [done|done|lia]. }
      destruct (negb (time.Before (Now env (ticks w2)) (accessTokenValidUntil c1))).
      * exists []. cbn [fst snd]. destruct Hg3 as (Hs & Ht & _).
        subst w3. simpl in Hs, Ht.
        rewrite app_nil_r. simpl. split_and!; try done; try lia; by left.
      * destruct (requestReadings_grows env c1 w3) as (data & Hg2 & Hd).
        exists data. destruct (requestReadings env c1 w3) as [r w4]; cbn [fst snd] in *.
        destruct (grows_trans _ _ _ _ _ Hg3 Hg2) as (Hs & Ht & _).
        rewrite length_app in Ht. split_and!; try done; lia.
    + exists []. cbn [fst snd]. destruct Hg01 as (Hs & Ht & _).
      rewrite app_nil_r. simpl. split_and!; try done; try lia; by left.
  - exists [].
    destruct (requestReadings_grows env c w1) as (data & Hg2 & Hd).
    exists data. destruct (requestReadings env c w1) as [r w3]; cbn [fst snd] in *.
    destruct (grows_trans _ _ _ _ _ Hg0 Hg2) as (Hs & Ht & _).
    simpl in *. split_and!; try done; try lia; apply Forall_nil_2.
Qed.

(** X11.  When [getReadings] re-authenticates and [reauth] succeeds,
    the clock is not read again and the data request is built from the new
    session, never from the old one: the collector left is the one [reauth]
    made, and the only thing sent after the token exchange is the data
    request of that collector, which is sent as soon as [http.NewRequest]
    accepts its URL. *)
Theorem getReadings_uses_the_new_session env c w c1 w2 :
  (accessTokenValidUntil c - 2 * time.Minute ≤ Now env (ticks w))%Z →
  reauth env c (timeNow env w).2 = (Ok tt, c1, w2) →
  getReadings env c w
  = ((requestReadings env c1 w2).1, c1, (requestReadings env c1 w2).2)
  ∧ ticks (getReadings env c w).2 = ticks w2
  ∧ ∃ data, sent (getReadings env c w).2 = (sent w2 ++ data)%list
            ∧ (data = [] ∨ data = [appLaunchRequest c1])
            ∧ (NewRequest env (appLaunchURL c1) = None → data = [appLaunchRequest c1]).
Proof.
  intros Hexp%aboutToExpire_spec Hre.
  unfold timeNow in Hre. cbn [snd] in Hre.
  unfold getReadings, timeNow. cbv beta iota. rewrite Hexp, Hre. cbv beta iota.
  destruct (requestReadings env c1 w2) as [r w3] eqn:E. cbn [fst snd].
  split; [done|].
  unfold requestReadings, clientDo in E.
  destruct (NewRequest env (appLaunchURL c1)) as [msg|].
  - simplify_eq. split; [done|]. exists []. rewrite app_nil_r. split_and!; [done|by left|done].
  - assert (w3 = mkWorld (ticks w2) (S (trips w2)) (sent w2 ++ [appLaunchRequest c1])) as ->.
    { repeat (case_match; simpl in *; try done); by simplify_eq. }
    split; [done|]. exists [appLaunchRequest c1]. split_and!; [done|by right|done].
Qed.

Lemma getReadings_uses_the_new_session_witness :
  ∃ r w',
    getReadings (sample.authUp sample.noon sample.acceptsAll)
      (sample.appCollector (sample.noon + 1 * time.Minute)%Z) world0
    = (r, {| config := sample.appConfig; accessToken := "new-jwt";
             accessTokenValidUntil := (sample.noon + 3600 * time.Second)%Z;
             userId := "user2"; metrics := buildMetrics |}, w').
Proof.
  eexists _, _.
  refine (proj1 (getReadings_uses_the_new_session
            (sample.authUp sample.noon sample.acceptsAll)
            (sample.appCollector (sample.noon + 1 * time.Minute)%Z) world0 _ _ _ _)).
  - vm_compute. discriminate.
  - reflexivity.
Defined.

(** X12.  With a clock that does not go back, a token that has already
    expired when [getReadings] is called is never presented: if [reauth]
    fails, the call returns the re-authentication error, leaves the collector
    as it was, and sends nothing after what [reauth] sent, so no data
    request. *)
Theorem getReadings_never_presents_expired_token env c w err c1 w2 :
  (∀ n m : nat, (n ≤ m)%nat → (Now env n ≤ Now env m)%Z) →
  (accessTokenValidUntil c ≤ Now env (ticks w))%Z →
  reauth env c (timeNow env w).2 = (Err err, c1, w2) →
  getReadings env c w
  = (Err (Errorf "Failed to re-authenticate to Nest API" err), c,
     mkWorld (S (ticks w2)) (trips w2) (sent w2))
  ∧ Forall (isAuthRequest c) (newRequests w (getReadings env c w).2).
Proof.
  intros Hmono Hexpired Hre.
  assert (c1 = c) as -> by (eapply reauth_failed_unchanged; [exact Hre|done]).
  destruct (reauth_grows env c (timeNow env w).2) as (auth & (Hs & _ & Ht) & Hf & _).
  rewrite Hre in Hs, Ht. cbn [snd] in Hs, Ht. unfold timeNow in Hs, Ht, Hre.
  cbn [snd sent ticks] in Hs, Ht, Hre.
  assert (aboutToExpire (Now env (ticks w)) (accessTokenValidUntil c) = true) as Hexp.
  { apply aboutToExpire_spec. unfold time.Minute, time.Second. lia. }
  assert (getReadings env c w
          = (Err (Errorf "Failed to re-authenticate to Nest API" err), c,
             mkWorld (S (ticks w2)) (trips w2) (sent w2))) as Hget.
  { unfold getReadings, timeNow. cbv beta iota. rewrite Hexp, Hre. cbv beta iota.
    unfold time.Before. cbn [ticks].
    destruct (Z.ltb_spec (Now env (ticks w2)) (accessTokenValidUntil c)); [|done].
    pose proof (Hmono (ticks w) (ticks w2)). lia. }
  split; [done|]. rewrite Hget. unfold newRequests. cbn [snd sent].
  by rewrite Hs, drop_app_length.
Qed.

Lemma getReadings_never_presents_expired_token_witness :
  getReadings (sample.authDown sample.noon)
    (sample.appCollector (sample.noon - 1 * time.Minute)%Z) world0
  = (Err (Errorf "Failed to re-authenticate to Nest API" sample.authDownError),
     sample.appCollector (sample.noon - 1 * time.Minute)%Z,
     mkWorld 2 1 [googleTokenRequest (sample.appCollector (sample.noon - 1 * time.Minute)%Z)]).
Proof.
  refine (proj1 (getReadings_never_presents_expired_token (sample.authDown sample.noon)
            (sample.appCollector (sample.noon - 1 * time.Minute)%Z) world0
            sample.authDownError
            (sample.appCollector (sample.noon - 1 * time.Minute)%Z)
            (mkWorld 1 1 [googleTokenRequest
                            (sample.appCollector (sample.noon - 1 * time.Minute)%Z)])
            _ _ _)).
  - intros n m _. simpl. lia.
  - vm_compute. discriminate.
  - reflexivity.
Defined.

Lemma requestReadings_Panic env c w :
  (requestReadings env c w).1 = Panic →
  ∃ msg, NewRequest env (appLaunchURL c) = Some msg.
Proof.
  unfold requestReadings, clientDo.
  destruct (NewRequest env (appLaunchURL c)) as [msg|]; [by exists msg|].
  destruct (Do env (trips w) (appLaunchRequest c)) as [msg|[code body]]; [done|].
  cbn [http.StatusCode http.ResBody].
  destruct (negb (code =? 200)%Z); [done|].
  destruct body as [msg|text doc]; [done|].
  destruct (parseReadings_resolve doc) as (r & -> & _). done.
Qed.

(** X13.  [getReadings] panics in one situation only: [http.NewRequest]
    refuses the URL of the data request (whose error the code overwrites
    unread before it sets a header on the nil request).  The token exchange
    and the parsing of the buckets never panic. *)
Theorem getReadings_panics_only_on_refused_URL env c w :
  (getReadings env c w).1.1 = Panic →
  ∃ msg, NewRequest env (appLaunchURL (getReadings env c w).1.2) = Some msg.
Proof.
  unfold getReadings. destruct (timeNow env w) as [now w1].
  destruct (aboutToExpire now (accessTokenValidUntil c)).
  - pose proof (reauth_no_panic env c w1) as Hnp.
    destruct (reauth env c w1) as [[r c1] w2]. destruct r as [[]| e |]; [| |done].
    + pose proof (requestReadings_Panic env c1 w2) as Hp.
      by destruct (requestReadings env c1 w2).
    + destruct (timeNow env w2) as [now2 w3].
      destruct (negb (time.Before now2 (accessTokenValidUntil c1))); [done|].
      pose proof (requestReadings_Panic env c1 w3) as Hp.
      by destruct (requestReadings env c1 w3).
  - pose proof (requestReadings_Panic env c w1) as Hp.
    by destruct (requestReadings env c w1).
Qed.

Lemma getReadings_panics_only_on_refused_URL_witness :
  (getReadings (sample.authUp sample.noon sample.refusesAppLaunch)
     (sample.appCollector (sample.noon + 10 * time.Minute)%Z) world0).1.1 = Panic
  ∧ ∃ msg, sample.refusesAppLaunch
             (appLaunchURL (sample.appCollector (sample.noon + 10 * time.Minute)%Z))
           = Some msg.
Proof.
  split; [reflexivity|].
  exact (getReadings_panics_only_on_refused_URL
           (sample.authUp sample.noon sample.refusesAppLaunch)
           (sample.appCollector (sample.noon + 10 * time.Minute)%Z) world0 eq_refl).
Defined.

End NestAppSessionMore.

(** * More on the readings of the Nest app collector *)

Section NestAppReadingsMore.

Import nestapp.

#[local] Arguments gjson.Get : simpl never.
#[local] Arguments gjson.String : simpl never.
#[local] Arguments gjson.Float : simpl never.
#[local] Arguments gjson.Exists : simpl never.
#[local] Arguments gjson.ForEach : simpl never.
#[local] Arguments strings.HasPrefix : simpl never.
#[local] Arguments strings.TrimPrefix : simpl never.

Lemma visitStructure_keyed st kv :
  keyed st.1
  ∧ (∀ id s, st.1 !! id = Some s → math.IsNaN (OutsideTemperature s) = true) →
  keyed (visitStructure st kv).1
  ∧ (∀ id s, (visitStructure st kv).1 !! id = Some s →
             math.IsNaN (OutsideTemperature s) = true).
Proof.
  intros [Hk Hn]. unfold visitStructure.
  destruct (strings.HasPrefix _ _); [|done].
  destruct (gjson.Exists _); [|done]. simpl.
  split; intros id s [[<- <-]|[_ Hs]]%lookup_insert_Some; simpl; eauto.
Qed.

Lemma firstLoop_keyed kvs st :
  keyed st.1
  ∧ (∀ id s, st.1 !! id = Some s → math.IsNaN (OutsideTemperature s) = true) →
  keyed (fold_left visitStructure kvs st).1
  ∧ (∀ id s, (fold_left visitStructure kvs st).1 !! id = Some s →
             math.IsNaN (OutsideTemperature s) = true).
Proof.
  revert st. induction kvs as [|kv kvs IH]; intros st Hst; simpl; [done|].
  by apply IH, visitStructure_keyed.
Qed.

(** One call of the callback of the last loop: a structure of the
    result is one of before, or one of before with the temperature of this
    member of the weather. *)
Lemma visitWeather_lookup S kv id s :
  visitWeather S kv !! id = Some s →
  S !! id = Some s
  ∨ (kv.1 = "structure." ++ id
     ∧ gjson.Exists (gjson.Get (gjson.Get (Some kv.2) "current") "temp_c") = true
     ∧ ∃ s0, S !! id = Some s0 ∧ Id s = Id s0 ∧ Name s = Name s0).
Proof.
  unfold visitWeather. destruct kv as [key value]. simpl.
  destruct (strings.HasPrefix key "structure.") eqn:Hp; [|by left].
  destruct (S !! strings.TrimPrefix key "structure.") as [s0|] eqn:Hs0; [|by left].
  destruct (gjson.Exists (gjson.Get (Some value) "current")); [|by left].
  destruct (gjson.Exists (gjson.Get (gjson.Get (Some value) "current") "temp_c")) eqn:Ht;
    [|by left].
  intros [[<- <-]|[_ Hs]]%lookup_insert_Some; [|by left].
  right. split; [by apply HasPrefix_TrimPrefix|]. split; [done|]. by exists s0.
Qed.

Lemma visitWeather_dom S kv id :
  is_Some (visitWeather S kv !! id) ↔ is_Some (S !! id).
Proof.
  unfold visitWeather. destruct kv as [key value].
  destruct (strings.HasPrefix key "structure."); [|done].
  destruct (S !! strings.TrimPrefix key "structure.") as [s0|] eqn:Hs0; [|done].
  destruct (gjson.Exists (gjson.Get (Some value) "current")); [|done].
  destruct (gjson.Exists (gjson.Get (gjson.Get (Some value) "current") "temp_c")); [|done].
  rewrite lookup_insert_is_Some'. split; [|by right].
  intros [<-|?]; [by eexists|done].
Qed.

Lemma lastLoop kvs S id s :
  fold_left visitWeather kvs S !! id = Some s →
  ∃ s0, S !! id = Some s0 ∧ Id s = Id s0 ∧ Name s = Name s0
        ∧ (s = s0 ∨ hasWeather kvs id).
Proof.
  revert S. induction kvs as [|kv kvs IH]; intros S Hs; simpl in Hs.
  { exists s. split_and!; try done. by left. }
  destruct (IH _ Hs) as (s1 & Hs1 & HId & HName & Hw).
  assert (hasWeather kvs id → hasWeather (kv :: kvs) id) as Hmono.
  { intros (kv' & Hin & Hrest). exists kv'. split; [by right|done]. }
  apply visitWeather_lookup in Hs1 as [Hs1|(Hkey & Ht & s0 & Hs0 & HId0 & HName0)].
  - exists s1. split_and!; try done. destruct Hw as [->|Hw]; [by left|right; auto].
  - exists s0. split_and!; [done|congruence|congruence|].
    right. destruct Hw as [->|Hw]; [|auto].
    exists kv. split; [by left|done].
Qed.

Lemma lastLoop_dom kvs S id :
  is_Some (fold_left visitWeather kvs S !! id) ↔ is_Some (S !! id).
Proof.
  revert S. induction kvs as [|kv kvs IH]; intros S; simpl; [done|].
  by rewrite IH, visitWeather_dom.
Qed.

Lemma fold_snoc (kvs : list (string * Structure)) (acc : list Structure) :
  fold_left (λ l kv, (l ++ [kv.2])%list) kvs acc = (acc ++ kvs.*2)%list.
Proof.
  revert acc. induction kvs as [|kv kvs IH]; intros acc; simpl.
  - by rewrite app_nil_r.
  - by rewrite IH, <- app_assoc.
Qed.

(** The structures [parseReadings] returns are the values of a map
    keyed by identifier, whose names are those of the description and whose
    temperatures are NaN unless the weather set them. *)
Lemma parseReadings_structures doc :
  ∃ r (S : gmap string Structure),
    parseReadings doc = Some r
    ∧ structures r = (map_to_list S).*2
    ∧ keyed S
    ∧ (∀ id, is_Some (S !! id) ↔ is_Some (structureNames (bucketsOf doc) !! id))
    ∧ (∀ id s, S !! id = Some s →
         structureNames (bucketsOf doc) !! id = Some (Name s)
         ∧ (math.IsNaN (OutsideTemperature s) = false → hasWeather (weatherOf doc) id)).
Proof.
  unfold parseReadings, bucketsOf, weatherOf.
  set (kvs := gjson.ForEach (gjson.Get (Some doc) "updated_buckets")).
  assert (fresh (∅, [])) as Hfresh0.
  { split; simpl; intros *; by rewrite lookup_empty. }
  destruct (firstLoop kvs (∅, []) Hfresh0) as [Hfresh Hnames].
  destruct (firstLoop_keyed kvs (∅, [])) as [Hkeyed Hnan].
  { split; [unfold keyed|]; simpl; intros *; by rewrite lookup_empty. }
  destruct (fold_left visitStructure kvs (∅, [])) as [S store].
  simpl in Hnames, Hkeyed, Hnan. rewrite fmap_empty in Hnames.
  destruct (secondLoop S kvs store) as (store' & Hfold & Hstore).
  { intros id s Hs. destruct (proj1 Hfresh _ _ Hs) as (l & -> & _). by eexists. }
  rewrite Hfold. simpl.
  set (wkvs := gjson.ForEach (gjson.Get (Some doc) "weather_for_structures")).
  set (S' := if gjson.Exists (gjson.Get (Some doc) "weather_for_structures")
             then fold_left visitWeather wkvs S else S).
  assert (∀ id s, S' !! id = Some s →
            ∃ s0, S !! id = Some s0 ∧ Id s = Id s0 ∧ Name s = Name s0
                  ∧ (s = s0 ∨ hasWeather wkvs id)) as Hlast.
  { intros id s Hs. subst S'.
    destruct (gjson.Exists (gjson.Get (Some doc) "weather_for_structures"));
      [by apply lastLoop|].
    exists s. split_and!; try done. by left. }
  assert (∀ id, is_Some (S' !! id) ↔ is_Some (S !! id)) as Hdom.
  { intros id. subst S'.
    destruct (gjson.Exists (gjson.Get (Some doc) "weather_for_structures")); [|done].
    apply lastLoop_dom. }
  eexists _, S'. split; [reflexivity|]. simpl. rewrite fold_snoc. simpl.
  split; [done|]. split_and!.
  - intros id s (s0 & Hs0 & HId & _)%Hlast. rewrite HId. by apply Hkeyed.
  - intros id. unfold structureNames.
    rewrite Hdom, <- Hnames, lookup_fmap. by rewrite fmap_is_Some.
  - intros id s (s0 & Hs0 & _ & HName & Hw)%Hlast. split.
    + unfold structureNames. rewrite <- Hnames, lookup_fmap, Hs0. simpl. by rewrite HName.
    + intros Hnn. destruct Hw as [->|Hw]; [|done].
      rewrite (Hnan _ _ Hs0) in Hnn. done.
Qed.

Lemma put_fold_lookup_Some (l : list (string * string)) m k v :
  fold_left put l m !! k = Some v → (k, v) ∈ l ∨ m !! k = Some v.
Proof.
  revert m. induction l as [|[k' v'] l IH]; intros m Hl; simpl in Hl; [by right|].
  destruct (IH _ Hl) as [Hin|Hm]; [left; by right|].
  unfold put in Hm. simpl in Hm.
  apply lookup_insert_Some in Hm as [[<- <-]|[_ Hm]]; [left; by left|by right].
Qed.

Lemma put_fold_lookup_is_Some (l : list (string * string)) m k :
  k ∈ l.*1 → is_Some (fold_left put l m !! k).
Proof.
  revert m. induction l as [|[k' v'] l IH]; intros m Hk; simpl.
  - by apply elem_of_nil in Hk.
  - destruct (decide (k ∈ l.*1)) as [Hin|Hout]; [by apply IH|].
    apply elem_of_cons in Hk as [->|Hk]; [|done]. simpl.
    rewrite put_fold_lookup_None by done. unfold put. simpl.
    rewrite lookup_insert_eq. by eexists.
Qed.

(** X14.  The structures [parseReadings] returns have pairwise distinct
    identifiers, so no two of them give the same labels to the outside
    temperature.  Each one bears the identifier and the name of a
    [structure.*] bucket of the response that has a value, and every
    [structure.*] bucket that has a value is represented by the structure of
    its identifier. *)
Theorem parseReadings_structures_have_distinct_ids doc :
  ∃ r, parseReadings doc = Some r
       ∧ NoDup (map Id (structures r))
       ∧ (∀ s, s ∈ structures r →
            ∃ b, b ∈ bucketsOf doc ∧ isStructureBucket b (Id s) (Name s))
       ∧ (∀ b id name, b ∈ bucketsOf doc → isStructureBucket b id name →
            id ∈ map Id (structures r)).
Proof.
  destruct (parseReadings_structures doc) as (r & S & Hr & Hs & Hkeyed & Hdom & Hname).
  exists r. split; [done|]. rewrite Hs.
  assert (map Id (map_to_list S).*2 = (map_to_list S).*1) as Hids.
  { rewrite <- list_fmap_compose. apply list_fmap_ext.
    intros i [id s] Hin%list_elem_of_lookup_2%elem_of_map_to_list. simpl.
    by apply Hkeyed. }
  rewrite Hids. split_and!.
  - apply NoDup_fst_map_to_list.
  - intros s ([id s'] & -> & Hin%elem_of_map_to_list)%list_elem_of_fmap. simpl.
    destruct (Hname _ _ Hin) as [Hn _]. rewrite (Hkeyed _ _ Hin).
    apply put_fold_lookup_Some in Hn as [Hin'|Hn]; [|by rewrite lookup_empty in Hn].
    apply list_elem_of_omap in Hin' as (b & Hb & Hentry).
    exists b. split; [done|]. by apply structureEntry_key.
  - intros b id name Hb Hsb%structureEntry_key.
    assert (is_Some (S !! id)) as [s Hs'].
    { apply Hdom. apply put_fold_lookup_is_Some.
      apply list_elem_of_fmap. exists (id, name). split; [done|].
      apply list_elem_of_omap. by exists b. }
    apply list_elem_of_fmap. exists (id, s). split; [done|].
    by apply elem_of_map_to_list.
Qed.

Lemma collectStructures_all_NaN m (l : list Structure) :
  Forall (λ s, math.IsNaN (OutsideTemperature s) = true) l →
  collectStructures m l = [].
Proof.
  induction 1 as [|s l Hs _ IH]; simpl; [done|]. by rewrite Hs, IH.
Qed.

(** X15.  A structure is returned with an outside temperature that is
    not NaN only when [weather_for_structures] has a member for its
    identifier with a [current.temp_c]; so a response without
    [weather_for_structures] makes [Collect] send no outside temperature at
    all. *)
Theorem outside_temperature_comes_from_weather doc :
  ∃ r, parseReadings doc = Some r
       ∧ (∀ s, s ∈ structures r →
            math.IsNaN (OutsideTemperature s) = false →
            hasWeather (weatherOf doc) (Id s))
       ∧ (gjson.Get (Some doc) "weather_for_structures" = None →
          ∀ m, collectStructures m (structures r) = []).
Proof.
  destruct (parseReadings_structures doc) as (r & S & Hr & Hs & Hkeyed & Hdom & Hname).
  exists r. split; [done|].
  assert (∀ s, s ∈ structures r →
            math.IsNaN (OutsideTemperature s) = false →
            hasWeather (weatherOf doc) (Id s)) as Hw.
  { rewrite Hs.
    intros s ([id s'] & -> & Hin%elem_of_map_to_list)%list_elem_of_fmap Hnn. simpl in *.
    rewrite (Hkeyed _ _ Hin). by apply (Hname _ _ Hin). }
  split; [done|]. intros Hnone m. apply collectStructures_all_NaN.
  apply Forall_forall. intros s Hin.
  destruct (math.IsNaN (OutsideTemperature s)) eqn:E; [done|].
  destruct (Hw s Hin E) as (kv & Hkv & _).
  unfold weatherOf in Hkv. rewrite Hnone in Hkv. by apply elem_of_nil in Hkv.
Qed.

Lemma whereBucket_entry w sid es wid name :
  whereBucket w = Some (sid, es) → (wid, name) ∈ es → isWhereBucket w sid wid name.
Proof.
  unfold whereBucket, isWhereBucket.
  destruct (strings.HasPrefix _ _) eqn:Hp; [|done].
  destruct (gjson.Exists (bucketValue w)); [|done].
  intros [= <- <-] (e & He & Hentry)%list_elem_of_omap.
  split; [by apply HasPrefix_TrimPrefix|]. split; [done|].
  exists e. split; [done|]. unfold whereEntry in Hentry.
  destruct (gjson.Exists (gjson.Get (Some e) "where_id")); [|done].
  by simplify_eq.
Qed.

(** X16.  A [kryptonite.*] bucket whose where identifier is named by
    no [where.*] bucket of its own structure still gives a sensor, in place,
    with the empty string as where name; a where bucket of another structure
    that names the same identifier does not count. *)
Theorem sensor_of_unlisted_where_kept
    doc (before after : list gjson.Value) (k : gjson.Value) sid wid :
  bucketsOf doc = (before ++ k :: after)%list →
  isSensorBucket k sid wid →
  (∀ w name, w ∈ bucketsOf doc → ¬ isWhereBucket w sid wid name) →
  ∃ r x, parseReadings doc = Some r
         ∧ sensors r = (omap (resolve (bucketsOf doc)) before ++
                        x :: omap (resolve (bucketsOf doc)) after)%list
         ∧ SerialNumber x = gjson.String (gjson.Get (bucketValue k) "serial_number")
         ∧ StructureName x = default EmptyString (structureNames (bucketsOf doc) !! sid)
         ∧ WhereName x = EmptyString.
Proof.
  intros Hbs (Hpre & Hval & -> & ->) Hno.
  destruct (parseReadings_resolve doc) as (r & Hr & Hsensors).
  assert (whereNames (gjson.String (gjson.Get (bucketValue k) "structure_id"))
            (bucketsOf doc)
          !! gjson.String (gjson.Get (bucketValue k) "where_id") = None) as Hnone.
  { unfold whereNames. rewrite put_fold_lookup_None; [by rewrite lookup_empty|].
    intros ([wid name] & Heq & Hin)%list_elem_of_fmap. simpl in Heq.
    apply list_elem_of_In, in_flat_map in Hin as (w & Hw%list_elem_of_In & Hin).
    destruct (whereBucket w) as [[id' es]|] eqn:Hwb; [|done].
    destruct (decide (id' = _)) as [->|]; [|done].
    apply list_elem_of_In in Hin. eapply Hno; [exact Hw|].
    rewrite Heq. by eapply whereBucket_entry. }
  exists r. eexists. split; [done|]. split.
  { rewrite Hsensors. rewrite Hbs at 2. rewrite omap_app. f_equal. csimpl.
    unfold resolve at 1. rewrite Hpre, Hval. cbv zeta. reflexivity. }
  simpl. split; [done|]. split; [done|].
  rewrite Hnone. by destruct (structureNames _ !! _).
Qed.

Lemma sensor_of_unlisted_where_kept_witness :
  ∃ r, parseReadings (sample.bucketsDoc
         [sample.structureBucket "A" "Home"; sample.structureBucket "B" "Barn";
          sample.whereBucket "B" [("w1", "Loft")]; sample.sensorBucket "S1" "A" "w1"])
       = Some r
       ∧ map (λ x, (SerialNumber x, StructureName x, WhereName x)) (sensors r)
         = [("S1", "Home", EmptyString)].
Proof.
  destruct (sensor_of_unlisted_where_kept
              (sample.bucketsDoc
                 [sample.structureBucket "A" "Home"; sample.structureBucket "B" "Barn";
                  sample.whereBucket "B" [("w1", "Loft")]; sample.sensorBucket "S1" "A" "w1"])
              [sample.structureBucket "A" "Home"; sample.structureBucket "B" "Barn";
               sample.whereBucket "B" [("w1", "Loft")]] []
              (sample.sensorBucket "S1" "A" "w1") "A" "w1")
    as (r & x & Hr & Hs & _).
  - reflexivity.
  - repeat split.
  - intros w name Hw (Hkey & _). vm_compute in Hw.
    repeat (apply elem_of_cons in Hw as [->|Hw]; [vm_compute in Hkey; discriminate|]).
    by apply elem_of_nil in Hw.
  - exists r. split; [exact Hr|]. vm_compute in Hr. injection Hr as <-. reflexivity.
Defined.

(** X17.  The sensors [parseReadings] returns are one for each
    [kryptonite.*] bucket that has a value, in the order of the buckets,
    whatever the structure and where buckets are; so under a permutation of
    the buckets the serial numbers of the sensors are permuted and nothing
    else, also when keys are repeated. *)
Theorem sensors_one_per_kryptonite_bucket doc :
  ∃ r, parseReadings doc = Some r
       ∧ map SerialNumber (sensors r) = omap serialOf (bucketsOf doc)
       ∧ ∀ doc', bucketsOf doc ≡ₚ bucketsOf doc' →
           ∃ r', parseReadings doc' = Some r'
                 ∧ map SerialNumber (sensors r) ≡ₚ map SerialNumber (sensors r').
Proof.
  assert (∀ d, ∃ r, parseReadings d = Some r
                    ∧ map SerialNumber (sensors r) = omap serialOf (bucketsOf d)) as Hall.
  { intros d. destruct (parseReadings_resolve d) as (r & Hr & Hs).
    exists r. split; [done|]. rewrite Hs.
    change (map SerialNumber ?l) with (SerialNumber <$> l).
    rewrite list_fmap_omap. apply omap_ext_all. intros b.
    unfold resolve, serialOf.
    destruct (strings.HasPrefix _ _); [|done]. by destruct (gjson.Exists _). }
  destruct (Hall doc) as (r & Hr & Hs). exists r. split; [done|]. split; [done|].
  intros doc' Hperm. destruct (Hall doc') as (r' & Hr' & Hs').
  exists r'. split; [done|]. rewrite Hs, Hs'. by apply omap_Permutation.
Qed.

(** X21.  When several [structure.*] buckets have the same key, the
    last one in the array wins: every sensor that refers to that structure is
    named after the last structure bucket of that key that has a value. *)
Theorem last_structure_bucket_names_the_sensors
    doc (before after : list gjson.Value) (s : gjson.Value) sid name :
  bucketsOf doc = (before ++ s :: after)%list →
  isStructureBucket s sid name →
  (∀ b n, b ∈ after → ¬ isStructureBucket b sid n) →
  ∃ r, parseReadings doc = Some r
       ∧ sensors r = omap (resolve (bucketsOf doc)) (bucketsOf doc)
       ∧ ∀ k wid, k ∈ bucketsOf doc → isSensorBucket k sid wid →
           ∃ x, resolve (bucketsOf doc) k = Some x ∧ StructureName x = name.
Proof.
  intros Hbs Hs%structureEntry_key Hlast.
  destruct (parseReadings_resolve doc) as (r & Hr & Hsensors).
  exists r. split; [done|]. split; [done|].
  assert (structureNames (bucketsOf doc) !! sid = Some name) as Hname.
  { unfold structureNames. rewrite Hbs, omap_app, fold_left_app. csimpl. rewrite Hs.
    simpl. rewrite put_fold_lookup_None.
    - unfold put. simpl. by rewrite lookup_insert_eq.
    - intros ([id n] & -> & (b & Hb & Hentry)%list_elem_of_omap)%list_elem_of_fmap.
      simpl in *. eapply Hlast; [exact Hb|]. by apply structureEntry_key. }
  intros k wid Hk (Hpre & Hval & -> & ->).
  unfold resolve. rewrite Hpre, Hval. cbv zeta. eexists. split; [reflexivity|].
  simpl. by rewrite Hname.
Qed.

Lemma last_structure_bucket_names_the_sensors_witness :
  ∃ x, resolve sample.homeThenOffice (sample.sensorBucket "S1" "A" "w1") = Some x
       ∧ StructureName x = "Office".
Proof.
  destruct (last_structure_bucket_names_the_sensors
              (sample.bucketsDoc sample.homeThenOffice)
              [sample.structureBucket "A" "Home"]
              [sample.whereBucket "A" [("w1", "Kitchen")]; sample.sensorBucket "S1" "A" "w1"]
              (sample.structureBucket "A" "Office") "A" "Office")
    as (r & _ & _ & Hall).
  - reflexivity.
  - repeat split.
  - intros b n Hb (Hkey & _).
    repeat (apply elem_of_cons in Hb as [->|Hb]; [vm_compute in Hkey; discriminate|]).
    by apply elem_of_nil in Hb.
  - apply (Hall (sample.sensorBucket "S1" "A" "w1") "w1").
    + vm_compute. do 3 right. left.
    + repeat split.
Defined.

End NestAppReadingsMore.

(** * What the Nest app collector sends, and its registration *)

Section NestAppCollectMore.

Import nestapp prometheus.

Lemma collectSensors_Forall (P : Metric → Prop) m (l : list NestTemperatureSensor) :
  (∀ x v, P (MustNewConstMetric (temp m) v
               [SerialNumber x; StructureName x; WhereName x])) →
  (∀ x v, P (MustNewConstMetric (batteryLevel m) v
               [SerialNumber x; StructureName x; WhereName x])) →
  Forall P (collectSensors m l).
Proof.
  intros Ht Hb. induction l as [|x l IH]; cbn [collectSensors]; [apply Forall_nil_2|].
  by repeat apply Forall_cons_2.
Qed.

Lemma collectStructures_Forall (P : Metric → Prop) m (l : list Structure) :
  (∀ s v, P (MustNewConstMetric (outsideTemp m) v [Id s; Name s])) →
  Forall P (collectStructures m l).
Proof.
  intros Ho. induction l as [|s l IH]; cbn [collectStructures]; [apply Forall_nil_2|].
  apply Forall_app. split; [|done].
  destruct (negb _); [by apply Forall_cons_2; [|apply Forall_nil_2]|apply Forall_nil_2].
Qed.

Lemma nestapp_Collect_Forall (P : Collector → Metric → Prop) env c w :
  (∀ c' v, P c' (MustNewConstMetric (up (metrics c')) v [])) →
  (∀ c' x v, P c' (MustNewConstMetric (temp (metrics c')) v
                    [SerialNumber x; StructureName x; WhereName x])) →
  (∀ c' x v, P c' (MustNewConstMetric (batteryLevel (metrics c')) v
                    [SerialNumber x; StructureName x; WhereName x])) →
  (∀ c' s v, P c' (MustNewConstMetric (outsideTemp (metrics c')) v [Id s; Name s])) →
  match (Collect env c w).1.1 with
  | Some out => Forall (P (Collect env c w).1.2) out
  | None => True
  end.
Proof.
  intros Hup Ht Hb Ho. unfold Collect.
  destruct (getReadings env c w) as [[[r|e|] c'] w']; cbn [fst snd]; [| |done].
  - apply Forall_cons_2; [done|]. apply Forall_app. split.
    + by apply collectSensors_Forall.
    + by apply collectStructures_Forall.
  - by apply Forall_cons_2; [|apply Forall_nil_2].
Qed.

(** X18.  For a collector that [New] built, every metric a scrape sends
    has as many label values as its descriptor has variable labels (none for
    the up gauge, serial, structure and where for a sensor, id and name for
    a structure), also after the session was renewed; so no call of
    [MustNewConstMetric] in [Collect] can panic on the labels. *)
Theorem nestapp_Collect_labels_fit_descriptors env0 cfg w0 c w0' env w :
  New env0 cfg w0 = (Ok c, w0') →
  match (Collect env c w).1.1 with
  | Some out => Forall wellLabelled out
  | None => True
  end.
Proof.
  intros Hnew.
  assert (metrics c = buildMetrics) as Hm.
  { unfold New in Hnew.
    destruct (reauth env0 _ w0) as [[r c1] w1] eqn:E. destruct r as [[]| |]; [|done..].
    simplify_eq. by destruct (reauth_Ok_keeps _ _ _ _ _ E) as (_ & -> & _). }
  pose proof (nestapp_Collect_Forall
                (λ c' m, metrics c' = buildMetrics → wellLabelled m) env c w) as Hall.
  assert (metrics (Collect env c w).1.2 = buildMetrics) as Hm'.
  { unfold Collect.
    assert (metrics (getReadings env c w).1.2 = buildMetrics) as Hg.
    { destruct (getReadings_collector env c w) as [->|(w1 & w2 & Hre)]; [done|].
      destruct (reauth_Ok_keeps _ _ _ _ _ Hre) as (_ & -> & _). done. }
    by destruct (getReadings env c w) as [[[r|e|] c'] w']. }
  destruct ((Collect env c w).1.1) as [out|]; [|done].
  eapply Forall_impl; [apply Hall|]; try (by intros; unfold wellLabelled; simpl;
    match goal with H : metrics _ = _ |- _ => rewrite H end).
  simpl. auto.
Qed.

Lemma nestapp_Collect_labels_fit_descriptors_witness :
  match (Collect (sample.authDown sample.noon)
           (sample.appCollector (sample.noon + 10 * time.Minute)%Z) world0).1.1 with
  | Some out => Forall wellLabelled out
  | None => True
  end.
Proof.
  exact (nestapp_Collect_labels_fit_descriptors
           (sample.authUp (sample.noon - 3590 * time.Second)%Z sample.acceptsAll)
           sample.appConfig world0
           {| config := sample.appConfig; accessToken := "new-jwt";
              accessTokenValidUntil := (sample.noon + 10 * time.Second)%Z;
              userId := "user2"; metrics := buildMetrics |}
           _ (sample.authDown sample.noon) world0 eq_refl).
Defined.

(** X19.  A scrape sends no metric whose descriptor [Describe]
    has not announced, whatever the collector and whatever the replies. *)
Theorem nestapp_Collect_sends_described_metrics env c w :
  match (Collect env c w).1.1 with
  | Some out => Forall (λ m, desc m ∈ Describe (Collect env c w).1.2) out
  | None => True
  end.
Proof.
  apply (nestapp_Collect_Forall (λ c' m, desc m ∈ Describe c'));
    intros; unfold Describe; simpl; set_solver.
Qed.

End NestAppCollectMore.

Section Registration.


End Registration.
